(** * The LV2 example sampler (plugins/eg-sampler.lv2/sampler.c)

    A shallow embedding of the sampler plugin: the sample loader
    [handle_load_sample], the worker loop [worker_thread_main] and the
    real-time routine [run], followed by the properties of the design
    document that can be stated over them.

    Conventions.
    - C integers are [Z]; the two [uint32_t] locals of [run] wrap modulo
      [2^32] where the code narrows an [sf_count_t].
    - A computation returns [option]: [None] stands for an execution the C
      standard leaves undefined (a store outside the output block, a read
      outside a sample array or from released memory, releasing a block
      twice, an atom read under a layout it does not have, a [char] array
      without NUL read as a string).
    - The event loop stores a pointer through a pointer of another type
      (line 285).  The loop, and everything that calls it, is modelled for
      each reading of that store, see [Aliasing].
    - What the code prints, allocates and releases is collected in a list of
      [effect]s, so that statements about the real-time path can talk
      about it. *)

From stdpp Require Import base option list strings.
From Stdlib Require Import ZArith Lia.

Local Open Scope Z_scope.

(** ** Samples *)

(** A [float] is kept as its IEEE-754 binary32 bit pattern.  The plugin never
    computes with samples: it copies them and stores the constant [0]. *)
Module F32.
Definition t : Type := Z.
Definition zero : t := 0x00000000.
(** The bit patterns of the literals [0.1f], [0.2f], [0.3f], [0.4f]. *)
Definition c0_1 : t := 0x3DCCCCCD.
Definition c0_2 : t := 0x3E4CCCCD.
Definition c0_3 : t := 0x3E99999A.
Definition c0_4 : t := 0x3ECCCCCD.
End F32.

(** ** Data model *)

Definition URID : Type := Z.

(** [#define STRING_BUF 8192] *)
Definition STRING_BUF : Z := 8192.

(** The anonymous [uris] struct of [Sampler]. *)
Record URIs : Type := mkURIs {
  atom_Blank    : URID;
  atom_Resource : URID;
  filename_key  : URID;
  midi_Event    : URID;
  msg_Set       : URID;
  msg_body      : URID;
  state_Path    : URID
}.

(** The two fields of libsndfile's [SF_INFO] the plugin reads. *)
Record SF_INFO : Type := mkInfo {
  frames   : Z;
  channels : Z
}.

(** The target of a [float* data] field.  Every block returned by [malloc]
    is stored in exactly one [data] field, so the block is kept with the
    pointer: [Null] is the null pointer, [Live l] a block holding [l],
    [Released] a pointer whose block was passed to [free]. *)
Inductive buffer : Type :=
| Null
| Live (l : list F32.t)
| Released.

(** [SampleFile]: [filepath] is the content of the [char] array. *)
Record SampleFile : Type := mkSampleFile {
  filepath : list Z;
  info     : SF_INFO;
  data     : buffer
}.

(** The fields of [Sampler] that [run] and [handle_load_sample] use.  [samp]
    and [pending_samp] hold the structs the two pointers point to; [signal]
    is the count of the semaphore. *)
Record Sampler : Type := mkSampler {
  samp                 : SampleFile;
  pending_samp         : SampleFile;
  signal               : nat;
  pending_sample_ready : Z;
  uris                 : URIs;
  play                 : bool;
  frame                : Z
}.

Definition set_filepath (fp : list Z) (s : SampleFile) : SampleFile :=
  mkSampleFile fp (info s) (data s).
Definition set_info (i : SF_INFO) (s : SampleFile) : SampleFile :=
  mkSampleFile (filepath s) i (data s).
Definition set_data (d : buffer) (s : SampleFile) : SampleFile :=
  mkSampleFile (filepath s) (info s) d.

Definition set_samp (x : SampleFile) (p : Sampler) : Sampler :=
  mkSampler x (pending_samp p) (signal p) (pending_sample_ready p) (uris p)
            (play p) (frame p).
Definition set_pending_samp (x : SampleFile) (p : Sampler) : Sampler :=
  mkSampler (samp p) x (signal p) (pending_sample_ready p) (uris p)
            (play p) (frame p).
Definition set_signal (n : nat) (p : Sampler) : Sampler :=
  mkSampler (samp p) (pending_samp p) n (pending_sample_ready p) (uris p)
            (play p) (frame p).
Definition set_pending_sample_ready (r : Z) (p : Sampler) : Sampler :=
  mkSampler (samp p) (pending_samp p) (signal p) r (uris p) (play p) (frame p).
Definition set_play (b : bool) (p : Sampler) : Sampler :=
  mkSampler (samp p) (pending_samp p) (signal p) (pending_sample_ready p)
            (uris p) b (frame p).
Definition set_frame (f : Z) (p : Sampler) : Sampler :=
  mkSampler (samp p) (pending_samp p) (signal p) (pending_sample_ready p)
            (uris p) (play p) f.

(** The C truth value of the [int] flag. *)
Definition ready (p : Sampler) : bool := negb (pending_sample_ready p =? 0).

(** The sample array of a buffer as the design document speaks of it: the
    block while it is allocated, nothing otherwise. *)
Definition samples (s : SampleFile) : list F32.t :=
  match data s with
  | Live l => l
  | Null | Released => []
  end.

(** ** Events *)

(** Modelled from the spec: the atom layout (atom.h, atom-helpers.h) is not
    part of the sources; section 6 only says that an event is a note-on, a
    set-sample-path message carrying a path, or something else.  An atom has
    the type of its header and either a flat body (MIDI bytes, a string) or
    an object body: an id, an object type and a list of key/value
    properties. *)
Inductive LV2_Atom : Type :=
| Atom_raw (type : URID) (bytes : list Z)
| Atom_object (type : URID) (id otype : URID) (props : list LV2_Atom_Property)
with LV2_Atom_Property : Type :=
| Property (key : URID) (value : LV2_Atom).

Record LV2_Atom_Object : Type := mkObject {
  obj_id    : URID;
  obj_type  : URID;
  obj_props : list LV2_Atom_Property
}.

(** [ev->time.audio.frames] and [ev->body]. *)
Record LV2_Atom_Event : Type := mkEvent {
  time_frames : Z;
  body        : LV2_Atom
}.

Definition atom_type (a : LV2_Atom) : URID :=
  match a with
  | Atom_raw ty _ => ty
  | Atom_object ty _ _ _ => ty
  end.

(** The bytes after the header, [LV2_ATOM_BODY(a)] for an atom and [ev + 1]
    for the atom of an event.  The byte image of an object is not modelled. *)
Definition atom_bytes (a : LV2_Atom) : option (list Z) :=
  match a with
  | Atom_raw _ bs => Some bs
  | Atom_object _ _ _ _ => None
  end.

(** The atom read through a pointer cast to [LV2_Atom_Object]. *)
Definition atom_object (a : LV2_Atom) : option LV2_Atom_Object :=
  match a with
  | Atom_raw _ _ => None
  | Atom_object _ i t ps => Some (mkObject i t ps)
  end.

(** Modelled from the spec: [lv2_object_get] (atom-helpers.h) with a query of
    one key: the value of the first property of the object with that key,
    the pointer staying [NULL] when there is none. *)
Fixpoint lv2_object_get (props : list LV2_Atom_Property) (key : URID)
  : option LV2_Atom :=
  match props with
  | [] => None
  | Property k v :: rest =>
      if k =? key then Some v else lv2_object_get rest key
  end.

(** ** Effects *)

Inductive message : Type :=
| Loading_sample (path : list Z)
| Failed_to_open_sample (path : list Z)
| Failed_to_allocate
| Malformed_set_message_no_body
| Ignored_set_message_no_filename
| Request_to_load (str : list Z)
| Unknown_message_type (id : URID)
| Unknown_event_type (type : URID)
| Restoring_filename (path : list Z).

Inductive effect : Type :=
| Stdout (m : message)
| Stderr (m : message)
| Malloc (count : Z)
| Free (b : buffer).

(** ** C strings *)

(** The characters of the string held by a [char] array: those before the
    first NUL. *)
Fixpoint c_str (a : list Z) : list Z :=
  match a with
  | [] => []
  | c :: rest => if c =? 0 then [] else c :: c_str rest
  end.

(** [strlen(a)] on a [char] array: undefined when the array holds no NUL. *)
Fixpoint strlen (a : list Z) : option nat :=
  match a with
  | [] => None
  | c :: rest => if c =? 0 then Some O else S <$> strlen rest
  end.

(** [strncat(dest, src, n)]: at most [n] characters of the string [src] go
    after the string in [dest], then a NUL; undefined when [dest] holds no
    string or is too short for the NUL. *)
Definition strncat (dest src : list Z) (n : nat) : option (list Z) :=
  d ← strlen dest;
  let chars := take n (c_str src) in
  if (d + length chars <? length dest)%nat
  then Some (take d dest ++ chars ++ 0 :: drop (d + length chars + 1) dest)
  else None.

(** Whether a [char] array holds a string: a NUL among its characters. *)
Definition holds_string (a : list Z) : bool :=
  match strlen a with
  | Some _ => true
  | None => false
  end.

(** ** [run], what the event loop calls *)

(** [memcpy(dst, src, n)] into a [char] array: the first [n] bytes are
    replaced; undefined when the array is shorter. *)
Definition memcpy (dst src : list Z) : option (list Z) :=
  if (length src <=? length dst)%nat
  then Some (src ++ drop (length src) dst)
  else None.

(** [zix_sem_post]. *)
Definition zix_sem_post (p : Sampler) : Sampler := set_signal (S (signal p)) p.

(** ** [run], rendering *)

(** [output[pos] = v]; the block has as many slots as the host announced. *)
Definition store (output : list F32.t) (pos : Z) (v : F32.t)
  : option (list F32.t) :=
  if (0 <=? pos) && (pos <? Z.of_nat (length output))
  then Some (<[Z.to_nat pos := v]> output)
  else None.

(** [d[f]] for a [float* d]. *)
Definition fetch (d : buffer) (f : Z) : option F32.t :=
  match d with
  | Live l => if 0 <=? f then l !! Z.to_nat f else None
  | Null | Released => None
  end.

(** The narrowing of an [sf_count_t] to [uint32_t]. *)
Definition to_uint32 (x : Z) : Z := x mod 2 ^ 32.

(** [for (...; pos < limit; ++pos) output[pos] = 0;] with [n] the number of
    positions left below [limit].  Lines 324-326 and 350-352. *)
Fixpoint silence (n : nat) (pos : Z) (output : list F32.t)
  : option (Z * list F32.t) :=
  match n with
  | O => Some (pos, output)
  | S n' =>
      output' ← store output pos F32.zero;
      silence n' (pos + 1) output'
  end.

(** [for (; pos < sample_count && f < lf; ++pos, ++f) output[pos] = d[f];]
    with [n] the number of positions left below [sample_count].
    Lines 328-330. *)
Fixpoint copy_frames (n : nat) (d : buffer) (lf : Z) (pos f : Z)
    (output : list F32.t) : option (Z * Z * list F32.t) :=
  match n with
  | O => Some (pos, f, output)
  | S n' =>
      if f <? lf then
        v ← fetch d f;
        output' ← store output pos v;
        copy_frames n' d lf (pos + 1) (f + 1) output'
      else Some (pos, f, output)
  end.

(** Lines 319-337: the sample, possibly already in progress.  The result is
    the plugin, the local [pos] and the output block. *)
Definition render (plugin : Sampler) (start_frame : Z) (output : list F32.t)
    (sample_count : Z) : option (Sampler * Z * list F32.t) :=
  if play plugin then
    let f := to_uint32 (frame plugin) in
    let lf := to_uint32 (frames (info (samp plugin))) in
    '(pos, output1) ← silence (Z.to_nat start_frame) 0 output;
    '(pos', f', output2) ←
      copy_frames (Z.to_nat (sample_count - pos)) (data (samp plugin)) lf
                  pos f output1;
    let plugin1 := set_frame f' plugin in
    Some (if f' =? lf then set_play false plugin1 else plugin1, pos', output2)
  else Some (plugin, 0, output).

(** ** [run], installing the pending sample *)

(** [free(d)]: nothing for a null pointer, undefined for a released block.
    The pointer keeps its value and dangles. *)
Definition free (d : buffer) : option buffer :=
  match d with
  | Null => Some Null
  | Live _ => Some Released
  | Released => None
  end.

(** Lines 339-347. *)
Definition install_pending (plugin : Sampler)
  : option (Sampler * list effect) :=
  if negb (play plugin) && ready plugin then
    let tmp := samp plugin in
    let plugin1 := set_samp (pending_samp plugin) plugin in
    let plugin2 := set_pending_samp tmp plugin1 in
    let plugin3 := set_pending_sample_ready 0 plugin2 in
    d ← free (data (pending_samp plugin3));
    Some (set_pending_samp (set_data d (pending_samp plugin3)) plugin3,
          [Free (data (pending_samp plugin3))])
  else Some (plugin, []).

(** ** The loader *)

(** The part of libsndfile and of the allocator the loader calls.
    [sf_open path info] gives the [SF_INFO] the library leaves behind and,
    when the file opens, the items [sf_read_float] will deliver;
    [malloc_ok n] tells whether a block of [n] floats can be had. *)
Record Storage : Type := mkStorage {
  sf_open   : list Z -> SF_INFO -> SF_INFO * option (list F32.t);
  malloc_ok : Z -> bool
}.

(** [sf_read_float(sample, data, n)] into a fresh block of [n] floats.  Slots
    the file has no item for keep what [malloc] left there, read as zero. *)
Definition sf_read_float (items : list F32.t) (n : Z) : list F32.t :=
  take (Z.to_nat n) (items ++ replicate (Z.to_nat n) F32.zero).

(** [handle_load_sample], lines 102-138: what the call does to the plugin
    and what it prints and allocates.  Lines 107, 109 and 116 read the
    pending path array as a string; when the array holds none they read
    past its end, and the call has no defined behaviour, see
    [load_defined]. *)
Definition handle_load_sample (st : Storage) (plugin : Sampler)
  : Sampler * list effect :=
  let plugin0 := set_pending_sample_ready 0 plugin in
  let path := filepath (pending_samp plugin0) in
  let '(info', sample) := sf_open st path (info (pending_samp plugin0)) in
  let plugin1 :=
    set_pending_samp (set_info info' (pending_samp plugin0)) plugin0 in
  match sample with
  | Some items =>
      if (frames info' =? 0) || negb (channels info' =? 1) then
        (plugin1, [Stdout (Loading_sample path);
                   Stderr (Failed_to_open_sample path)])
      else if malloc_ok st (frames info') then
        let d := Live (sf_read_float items (frames info')) in
        let plugin2 :=
          set_pending_samp (set_data d (pending_samp plugin1)) plugin1 in
        (set_pending_sample_ready 1 plugin2,
         [Stdout (Loading_sample path); Malloc (frames info')])
      else
        (set_pending_samp (set_data Null (pending_samp plugin1)) plugin1,
         [Stdout (Loading_sample path); Malloc (frames info');
          Stderr Failed_to_allocate])
  | None =>
      (plugin1, [Stdout (Loading_sample path);
                 Stderr (Failed_to_open_sample path)])
  end.

(** Whether [handle_load_sample] has defined behaviour: the pending path
    array holds a string for [printf], [sf_open] and [fprintf] to read. *)
Definition load_defined (plugin : Sampler) : bool :=
  holds_string (filepath (pending_samp plugin)).


(** What [sf_open] answers for the pending path, line 109. *)
Definition open_pending (st : Storage) (plugin : Sampler)
  : SF_INFO * option (list F32.t) :=
  sf_open st (filepath (pending_samp plugin)) (info (pending_samp plugin)).

(** Whether the load of the pending path goes through: the three tests of
    line 113 and the one of line 125. *)
Definition load_succeeds (st : Storage) (plugin : Sampler) : bool :=
  let '(info', sample) := open_pending st plugin in
  match sample with
  | Some _ =>
      negb (frames info' =? 0) && (channels info' =? 1)
      && malloc_ok st (frames info')
  | None => false
  end.

(** One turn of the loop of [worker_thread_main], lines 146-152: the wait
    takes one unit of the semaphore, which must be there, and the load
    reads the pending path, which must hold a string. *)
Inductive worker_thread_main (st : Storage) : Sampler -> Sampler -> Prop :=
| worker_thread_main_turn plugin n :
    signal plugin = S n ->
    load_defined plugin = true ->
    worker_thread_main st plugin
      (handle_load_sample st (set_signal n plugin)).1.

(** ** Note-on events *)

(** A MIDI event whose status byte has the high nibble [0x9]. *)
Definition is_note_on (u : URIs) (ev : LV2_Atom_Event) : bool :=
  (atom_type (body ev) =? midi_Event u)
  && match atom_bytes (body ev) with
     | Some (d0 :: _) => Z.land d0 0xF0 =? 0x90
     | _ => false
     end.

(** ** The state file interface *)

(** [strncpy(dst, src, n)] with [n] the size of [dst]: the characters of
    the string [src], cut at [n], and zeros up to [n]. *)
Definition strncpy (src : list Z) (n : Z) : list Z :=
  take (Z.to_nat n) (src ++ replicate (Z.to_nat n) 0).

(** [restore], lines 389-412: [value] is what the host's [retrieve] gives
    back, the characters of the stored path or a null pointer. *)
Definition restore (st : Storage) (value : option (list Z)) (plugin : Sampler)
  : Sampler * list effect :=
  match value with
  | Some path =>
      let loaded :=
        handle_load_sample st
          (set_pending_samp
             (set_filepath (strncpy path STRING_BUF) (pending_samp plugin))
             plugin) in
      (loaded.1, Stdout (Restoring_filename path) :: loaded.2)
  | None => (plugin, [])
  end.

(** ** After [instantiate] *)

(** A [SampleFile] after [memset(..., 0, sizeof(SampleFile))]. *)
Definition zeroed_SampleFile : SampleFile :=
  mkSampleFile (replicate (Z.to_nat STRING_BUF) 0) (mkInfo 0 0) Null.

(** The plugin when [instantiate] calls [handle_load_sample] (line 251): both
    sample files zeroed, the path of the default sample in the pending one.
    [instantiate] gives no value to [play], [frame] and
    [pending_sample_ready]; they are whatever [malloc] left. *)
Definition allocated (u : URIs) (path : list Z) (play0 : bool) (frame0 : Z)
    (ready0 : Z) : Sampler :=
  mkSampler zeroed_SampleFile
            (set_filepath (strncpy path STRING_BUF) zeroed_SampleFile)
            0 ready0 u play0 frame0.

(** ** Sequences of calls *)

(** The calls that change the plugin once it exists. *)
Inductive call : Type :=
| Call_load (st : Storage)
| Call_restore (st : Storage) (value : option (list Z))
| Call_run (events : list LV2_Atom_Event) (output : list F32.t)
           (sample_count : Z).

(** ** Invariants *)

(** The design document's invariant of a sample buffer: the sample array is
    empty or as long as the frame count says. *)
Definition consistent (s : SampleFile) : bool :=
  match samples s with
  | [] => true
  | _ :: _ => Z.of_nat (length (samples s)) =? frames (info s)
  end.

(** The same, for the active buffer always and for the pending one once it
    is ready. *)
Definition buffers_consistent (p : Sampler) : bool :=
  consistent (samp p) && (negb (ready p) || consistent (pending_samp p)).


(** Two plugins that play the same: same active buffer, same playback
    state, same URIDs, same pending path. *)
Definition same_playback (p q : Sampler) : Prop :=
  samp p = samp q /\ play p = play q /\ frame p = frame q
  /\ uris p = uris q
  /\ filepath (pending_samp p) = filepath (pending_samp q).

(** ** A scenario to compute with *)

Module Scenario.

Definition the_uris : URIs := mkURIs 1 2 3 4 5 6 7.

(** A four-frame mono sample. *)
Definition four_frames : list F32.t :=
  [F32.c0_1; F32.c0_2; F32.c0_3; F32.c0_4].

Definition loaded : SampleFile :=
  mkSampleFile (strncpy [109; 46; 119; 97; 118] STRING_BUF)
               (mkInfo 4 1) (Live four_frames).

(** Idle, the four-frame sample active, nothing pending. *)
Definition idle : Sampler :=
  mkSampler loaded zeroed_SampleFile 0 0 the_uris false 0.

(** The same with a second copy of the sample pending and ready. *)
Definition idle_ready : Sampler :=
  mkSampler loaded loaded 0 1 the_uris false 0.

(** The sample active, and the load of [n.wav] pending and ready. *)
Definition other_ready : Sampler :=
  mkSampler loaded
            (mkSampleFile (strncpy [110; 46; 119; 97; 118] STRING_BUF)
                          (mkInfo 4 1) (Live four_frames))
            0 1 the_uris false 0.

(** A MIDI note-on (status [0x90], key 60, velocity 100) at [offset]. *)
Definition note_on (offset : Z) : LV2_Atom_Event :=
  mkEvent offset (Atom_raw 4 [0x90; 60; 100]).

(** A set message whose body has no filename. *)
Definition set_without_filename : LV2_Atom_Event :=
  mkEvent 0 (Atom_object 1 0 5 [Property 6 (Atom_object 1 0 0 [])]).

(** A set message for the path [s.wav]. *)
Definition set_path : LV2_Atom_Event :=
  mkEvent 0 (Atom_object 1 0 5
    [Property 6 (Atom_object 1 0 0
       [Property 3 (Atom_raw 7 [115; 46; 119; 97; 118; 0])])]).

(** A host block of six frames with stale content. *)
Definition block6 : list F32.t := replicate 6 F32.c0_4.

(** A store with two files: paths starting with [m] name a mono file of
    four frames, paths starting with [s] a stereo file of fifty frames;
    nothing else opens.  Allocation succeeds. *)
Definition store2 : Storage :=
  mkStorage
    (fun path _ =>
       match path with
       | 109 :: _ => (mkInfo 4 1, Some four_frames)
       | 115 :: _ => (mkInfo 50 2, Some (replicate 100 F32.zero))
       | _ => (mkInfo 0 0, None)
       end)
    (fun _ => true).

(** A store in which no file opens. *)
Definition empty_store : Storage :=
  mkStorage (fun _ _ => (mkInfo 0 0, None)) (fun _ => true).

(** The plugin as [instantiate] allocates it, about to load [m.wav]. *)
Definition at_start : Sampler :=
  allocated the_uris [109; 46; 119; 97; 118] false 0 0.

End Scenario.

(** * The rest of the plugin *)

(** ** The default sample *)

(** [static const char* default_sample_file = "monosample.wav";] *)
Definition default_sample_file : list Z :=
  [109; 111; 110; 111; 115; 97; 109; 112; 108; 101; 46; 119; 97; 118].

(** ** Host features *)

(** The URIs the plugin compares and maps; their text comes from headers
    that are not part of the sources (uris.h, urid.h, state.h, message.h). *)
Record Names : Type := mkNames {
  LV2_URID_map_URI       : string;
  ATOM_BLANK_URI         : string;
  ATOM_RESOURCE_URI      : string;
  FILENAME_URI           : string;
  MIDI_EVENT_URI         : string;
  LV2_MESSAGE_Set        : string;
  LV2_MESSAGE_body       : string;
  LV2_STATE_PATH_URI     : string;
  LV2_STATE_MAP_PATH_URI : string
}.

(** What the [data] pointer of a feature points to: nothing, an
    [LV2_URID_Map] (its [map] function) or an [LV2_State_Map_Path] (its
    [abstract_path] function, from a path to a path). *)
Inductive Feature_data : Type :=
| No_data
| Urid_map (map : string -> URID)
| Map_path (abstract_path : list Z -> list Z).

Record LV2_Feature : Type := mkFeature {
  feature_URI  : string;
  feature_data : Feature_data
}.

(** [for (int i = 0; features[i]; ++i) if (!strcmp(features[i]->URI, uri))
    found = features[i]->data;], lines 226-230 and 369-373: the loop does
    not stop at a match. *)
Fixpoint scan_features (uri : string) (features : list LV2_Feature)
    (found : Feature_data) : Feature_data :=
  match features with
  | [] => found
  | f :: rest =>
      scan_features uri rest
        (if bool_decide (feature_URI f = uri) then feature_data f else found)
  end.

(** ** [instantiate] *)

(** What the host and the C library decide during [instantiate]: whether the
    three allocations, the semaphore and the thread can be had, and what
    [malloc] left in the three fields [instantiate] gives no value to. *)
Record Host : Type := mkHost {
  malloc_plugin_ok  : bool;
  malloc_samp_ok    : bool;
  malloc_pending_ok : bool;
  sem_init_ok       : bool;
  thread_ok         : bool;
  left_play         : bool;
  left_frame        : Z;
  left_ready        : Z
}.

(** The plugin with the [map] field of [Sampler]. *)
Record Instance : Type := mkInstance {
  sampler : Sampler;
  map     : string -> URID
}.

(** Why [instantiate] returns a null pointer. *)
Inductive instantiate_failure : Type :=
| Out_of_memory
| No_semaphore
| No_worker_thread
| No_urid_map.

(** [instantiate], lines 191-258.  [None] is an undefined execution, [inl] a
    null result, [inr] the plugin with what the first load did. *)
Definition instantiate (names : Names) (host : Host) (st : Storage)
    (path : list Z) (features : list LV2_Feature)
  : option (instantiate_failure + Instance * list effect) :=
  if negb (malloc_plugin_ok host) then Some (inl Out_of_memory)
  else if negb (malloc_samp_ok host) || negb (malloc_pending_ok host)
  then Some (inl Out_of_memory)
  else if negb (sem_init_ok host) then Some (inl No_semaphore)
  else if negb (thread_ok host) then Some (inl No_worker_thread)
  else
    match scan_features (LV2_URID_map_URI names) features No_data with
    | No_data => Some (inl No_urid_map)
    | Map_path _ => None
    | Urid_map m =>
        let u := mkURIs (m (ATOM_BLANK_URI names))
                        (m (ATOM_RESOURCE_URI names))
                        (m (FILENAME_URI names))
                        (m (MIDI_EVENT_URI names))
                        (m (LV2_MESSAGE_Set names))
                        (m (LV2_MESSAGE_body names))
                        (m (LV2_STATE_PATH_URI names)) in
        let copied := strncpy path STRING_BUF in
        len ← strlen copied;
        fp ← strncat copied default_sample_file (Z.to_nat STRING_BUF - len);
        let plugin :=
          mkSampler zeroed_SampleFile (set_filepath fp zeroed_SampleFile)
                    0 (left_ready host) u (left_play host) (left_frame host) in
        let loaded := handle_load_sample st plugin in
        Some (inr (mkInstance loaded.1 m, loaded.2))
    end.

(** ** [cleanup] *)

(** [cleanup], lines 157-170, as far as the sample data goes: the two
    [free]s of lines 165 and 166, in that order. *)
Definition cleanup (plugin : Sampler) : option (list effect) :=
  _ ← free (data (samp plugin));
  _ ← free (data (pending_samp plugin));
  Some [Free (data (samp plugin)); Free (data (pending_samp plugin))].

(** ** [connect_port] *)

(** The two port pointers of [Sampler], as addresses of host memory. *)
Record Ports : Type := mkPorts {
  event_port  : Z;
  output_port : Z
}.

(** [connect_port], lines 172-189; [SAMPLER_CONTROL] is 0 and [SAMPLER_OUT]
    is 1. *)
Definition connect_port (ports : Ports) (port : Z) (data : Z) : Ports :=
  if port =? 0 then mkPorts data (output_port ports)
  else if port =? 1 then mkPorts (event_port ports) data
  else ports.

(** The host connecting ports one call after the other, each call a port
    index and an address. *)
Definition connect_ports (ports : Ports) (calls : list (Z * Z)) : Ports :=
  foldl (fun ps c => connect_port ps c.1 c.2) ports calls.

(** ** [save] *)

Inductive State_flag : Type := LV2_STATE_IS_POD | LV2_STATE_IS_PORTABLE.

(** The arguments of the call of the host's [store] function. *)
Record Store_call : Type := mkStore {
  store_key   : URID;
  store_value : list Z;
  store_size  : nat;
  store_type  : URID;
  store_flags : list State_flag
}.

(** [save], lines 361-387: the call of [store], [store_value] being the
    string [abstract_path] returned.  Undefined when no feature gives a
    path mapper, the pointer being used unchecked, and when the active path
    holds no string. *)
Definition save (names : Names) (inst : Instance)
    (features : list LV2_Feature) : option Store_call :=
  match scan_features (LV2_STATE_MAP_PATH_URI names) features No_data with
  | Map_path abstract_path =>
      let plugin := sampler inst in
      len ← strlen (filepath (samp plugin));
      let apath := abstract_path (c_str (filepath (samp plugin))) in
      Some (mkStore (map inst (FILENAME_URI names)) apath (len + 1)
                    (state_Path (uris plugin))
                    [LV2_STATE_IS_POD; LV2_STATE_IS_PORTABLE])
  | No_data | Urid_map _ => None
  end.

(** The [store_size] bytes the host finds at [store_value], the block
    [abstract_path] returned being taken to hold the string and its NUL: the
    whole of it or a part; undefined when it is asked to read further. *)
Definition stored_bytes (c : Store_call) : option (list Z) :=
  if (store_size c <=? length (store_value c) + 1)%nat
  then Some (take (store_size c) (store_value c ++ [0]))
  else None.

(** ** States and events with defined behaviour *)

(** An active buffer as the plugin can have it: no block and no frames, or
    a block with as many samples as the frame count says. *)
Definition sound (s : SampleFile) : bool :=
  match data s with
  | Null => frames (info s) =? 0
  | Live l => frames (info s) =? Z.of_nat (length l)
  | Released => false
  end.

(** A pending buffer that can be installed. *)
Definition decoded (s : SampleFile) : bool :=
  match data s with
  | Live l => frames (info s) =? Z.of_nat (length l)
  | Null | Released => false
  end.

(** The plugin between calls: a sound active buffer, a decoded pending
    buffer when the flag is set, and two path arrays of [STRING_BUF]
    characters that each hold a string. *)
Definition well_formed (p : Sampler) : bool :=
  sound (samp p)
  && (negb (ready p) || decoded (pending_samp p))
  && (length (filepath (samp p)) =? Z.to_nat STRING_BUF)%nat
  && (length (filepath (pending_samp p)) =? Z.to_nat STRING_BUF)%nat
  && holds_string (filepath (samp p))
  && holds_string (filepath (pending_samp p)).

(** Two blocks of one length that hold the same samples below [pos]. *)
Definition agree (pos : Z) (a b : list F32.t) : Prop :=
  length a = length b /\ take (Z.to_nat pos) a = take (Z.to_nat pos) b.

(** A library that reports no negative frame count. *)
Definition frames_not_negative (st : Storage) : Prop :=
  forall path i, 0 <= frames (sf_open st path i).1.

(** ** A host to compute with *)

Module Session.

Definition names : Names :=
  mkNames "http://lv2plug.in/ns/ext/urid#map"
          "http://lv2plug.in/ns/ext/atom#Blank"
          "http://lv2plug.in/ns/ext/atom#Resource"
          "http://lv2plug.in/plugins/eg-sampler#filename"
          "http://lv2plug.in/ns/ext/midi#MidiEvent"
          "http://lv2plug.in/ns/ext/message#Set"
          "http://lv2plug.in/ns/ext/message#body"
          "http://lv2plug.in/ns/ext/state#Path"
          "http://lv2plug.in/ns/ext/state#mapPath".

(** A URID map that numbers the seven URIs as [Scenario.the_uris] does. *)
Definition the_map (uri : string) : URID :=
  if bool_decide (uri = ATOM_BLANK_URI names) then 1
  else if bool_decide (uri = ATOM_RESOURCE_URI names) then 2
  else if bool_decide (uri = FILENAME_URI names) then 3
  else if bool_decide (uri = MIDI_EVENT_URI names) then 4
  else if bool_decide (uri = LV2_MESSAGE_Set names) then 5
  else if bool_decide (uri = LV2_MESSAGE_body names) then 6
  else if bool_decide (uri = LV2_STATE_PATH_URI names) then 7
  else 0.

(** A host in which every allocation succeeds. *)
Definition host : Host := mkHost true true true true true false 0 0.


Definition map_feature : LV2_Feature :=
  mkFeature (LV2_URID_map_URI names) (Urid_map the_map).

(** A feature with the URI of the URID map and a null pointer. *)
Definition null_map_feature : LV2_Feature :=
  mkFeature (LV2_URID_map_URI names) No_data.

(** A path mapper that leaves paths as they are. *)
Definition map_path_feature : LV2_Feature :=
  mkFeature (LV2_STATE_MAP_PATH_URI names) (Map_path (fun path => path)).

(** A path mapper that puts [abs:] before a path. *)
Definition prefixing_feature : LV2_Feature :=
  mkFeature (LV2_STATE_MAP_PATH_URI names)
            (Map_path (fun path => [97; 98; 115; 58] ++ path)).

(** The bundle path [b/]. *)
Definition bundle : list Z := [98; 47].

(** A store in which [b/monosample.wav] is the four-frame mono sample. *)
Definition bundle_store : Storage :=
  mkStorage
    (fun path _ =>
       if bool_decide (c_str path = bundle ++ default_sample_file)
       then (mkInfo 4 1, Some Scenario.four_frames)
       else (mkInfo 0 0, None))
    (fun _ => true).

End Session.

(** * The real-time routine and the calls of the host *)

(** ** The store through the cast pointer *)

(** Line 285 gives [lv2_object_get] the address of [body], a
    [const LV2_Atom_Object*], as a [const LV2_Atom**]; when the helper finds
    the key it stores the address of the value through that pointer.  The C
    standard gives no meaning to a store into an object through an lvalue
    of another type (C11 6.5p7): [Undefined_store].  What the test of line
    290 sees then depends on how the program is built.  Read back from
    memory, [body] is the address that was stored: [Store_seen], the
    program as its text reads.  A compiler that relies on the rule takes
    [body] to be the null pointer of line 283 still, no store of its type
    lying in between: [Store_unseen], the program as an optimising compiler
    builds it. *)
Inductive Aliasing : Type :=
| Undefined_store
| Store_seen
| Store_unseen.

Section Build.

Variable al : Aliasing.

(** ** [run], the incoming events *)

(** The body of the [LV2_SEQUENCE_FOREACH] loop, lines 271-316, on the
    plugin and the local [start_frame].  Both [continue]s end the body.
    Line 308 prints the filename as a string, which it has to hold. *)
Definition handle_event (plugin : Sampler) (start_frame : Z)
    (ev : LV2_Atom_Event) : option (Sampler * Z * list effect) :=
  let u := uris plugin in
  if atom_type (body ev) =? midi_Event u then
    data ← atom_bytes (body ev);
    d0 ← data !! 0%nat;
    if Z.land d0 0xF0 =? 0x90
    then Some (set_play true (set_frame 0 plugin), time_frames ev, [])
    else Some (plugin, start_frame, [])
  else if (atom_type (body ev) =? atom_Resource u)
          || (atom_type (body ev) =? atom_Blank u) then
    obj ← atom_object (body ev);
    if obj_type obj =? msg_Set u then
      match lv2_object_get (obj_props obj) (msg_body u) with
      | None =>
          Some (plugin, start_frame, [Stderr Malformed_set_message_no_body])
      | Some b =>
          match al with
          | Undefined_store => None
          | Store_unseen =>
              Some (plugin, start_frame,
                    [Stderr Malformed_set_message_no_body])
          | Store_seen =>
              bobj ← atom_object b;
              match lv2_object_get (obj_props bobj) (filename_key u) with
              | None =>
                  Some (plugin, start_frame,
                        [Stderr Ignored_set_message_no_filename])
              | Some filename =>
                  str ← atom_bytes filename;
                  _ ← strlen str;
                  fp ← memcpy (filepath (pending_samp plugin)) str;
                  Some (zix_sem_post
                          (set_pending_samp
                             (set_filepath fp (pending_samp plugin)) plugin),
                        start_frame, [Stderr (Request_to_load (c_str str))])
              end
          end
      end
    else Some (plugin, start_frame, [Stderr (Unknown_message_type (obj_id obj))])
  else
    Some (plugin, start_frame,
          [Stderr (Unknown_event_type (atom_type (body ev)))]).

(** Modelled from the spec: [LV2_SEQUENCE_FOREACH] (atom-helpers.h) visits
    the events of the port in their order. *)
Fixpoint process_events (plugin : Sampler) (start_frame : Z)
    (evs : list LV2_Atom_Event) : option (Sampler * Z * list effect) :=
  match evs with
  | [] => Some (plugin, start_frame, [])
  | ev :: rest =>
      '(plugin1, start1, eff1) ← handle_event plugin start_frame ev;
      '(plugin2, start2, eff2) ← process_events plugin1 start1 rest;
      Some (plugin2, start2, eff1 ++ eff2)
  end.

(** ** [run] *)

(** [run(instance, sample_count)] with the content of the two ports: the
    events of [event_port] and the block [output_port] points to.  The
    result is the plugin, the block and what the call did besides. *)
Definition run (plugin : Sampler) (events : list LV2_Atom_Event)
    (output : list F32.t) (sample_count : Z)
  : option (Sampler * list F32.t * list effect) :=
  '(plugin1, start_frame, eff1) ← process_events plugin 0 events;
  '(plugin2, pos, output1) ← render plugin1 start_frame output sample_count;
  '(plugin3, eff2) ← install_pending plugin2;
  '(_, output2) ← silence (Z.to_nat (sample_count - pos)) pos output1;
  Some (plugin3, output2, eff1 ++ eff2).

(** ** Kinds of events *)

(** The report for an event the loop sets aside: a set message in which it
    finds no body or no filename, an object that is no set message, an
    event that is neither MIDI nor an object.  [None] for every other
    event. *)
Definition rejected (u : URIs) (ev : LV2_Atom_Event) : option message :=
  let ty := atom_type (body ev) in
  if ty =? midi_Event u then None
  else if (ty =? atom_Resource u) || (ty =? atom_Blank u) then
    match atom_object (body ev) with
    | Some obj =>
        if obj_type obj =? msg_Set u then
          match lv2_object_get (obj_props obj) (msg_body u) with
          | None => Some Malformed_set_message_no_body
          | Some b =>
              match al with
              | Undefined_store => None
              | Store_unseen => Some Malformed_set_message_no_body
              | Store_seen =>
                  match b with
                  | Atom_object _ _ _ props =>
                      match lv2_object_get props (filename_key u) with
                      | None => Some Ignored_set_message_no_filename
                      | Some _ => None
                      end
                  | Atom_raw _ _ => None
                  end
              end
          end
        else Some (Unknown_message_type (obj_id obj))
    | None => None
    end
  else Some (Unknown_event_type ty).

(** The filename of a set message the loop acts on. *)
Definition requested (u : URIs) (ev : LV2_Atom_Event) : option (list Z) :=
  if atom_type (body ev) =? midi_Event u then None
  else if (atom_type (body ev) =? atom_Resource u)
          || (atom_type (body ev) =? atom_Blank u) then
    match atom_object (body ev) with
    | Some obj =>
        if obj_type obj =? msg_Set u then
          match lv2_object_get (obj_props obj) (msg_body u), al with
          | Some (Atom_object _ _ _ props), Store_seen =>
              match lv2_object_get props (filename_key u) with
              | Some (Atom_raw _ str) => Some str
              | _ => None
              end
          | _, _ => None
          end
        else None
    | None => None
    end
  else None.


(** ** Sequences of calls *)

(** One call of the host or one load of the worker.  A load, by the worker
    or within [restore], is undefined when the path array it reads holds no
    string. *)
Definition perform (plugin : Sampler) (c : call) : option Sampler :=
  match c with
  | Call_load st =>
      if load_defined plugin
      then Some (handle_load_sample st plugin).1
      else None
  | Call_restore st value =>
      match value with
      | Some path =>
          if holds_string (strncpy path STRING_BUF)
          then Some (restore st value plugin).1
          else None
      | None => Some (restore st value plugin).1
      end
  | Call_run events output sample_count =>
      '(plugin', _, _) ← run plugin events output sample_count;
      Some plugin'
  end.

Fixpoint perform_all (plugin : Sampler) (cs : list call) : option Sampler :=
  match cs with
  | [] => Some plugin
  | c :: rest => plugin' ← perform plugin c; perform_all plugin' rest
  end.


(** * Properties *)

(** ** C strings *)

Lemma c_str_app (s rest : list Z) :
  0 ∉ s -> c_str (s ++ rest) = s ++ c_str rest.
Proof.
  induction s as [|c s IH]; intros Hs; [done|]. simpl.
  apply not_elem_of_cons in Hs as [Hc Hs].
  destruct (Z.eqb_spec c 0) as [?|_]; [congruence|].
  by rewrite IH.
Qed.

Lemma c_str_id (s : list Z) : 0 ∉ s -> c_str s = s.
Proof.
  intros Hs. rewrite <- (app_nil_r s) at 1.
  rewrite c_str_app by done. simpl. by rewrite app_nil_r.
Qed.

Lemma strlen_app (s rest : list Z) :
  0 ∉ s -> strlen (s ++ rest) = (fun k => (length s + k)%nat) <$> strlen rest.
Proof.
  induction s as [|c s IH]; intros Hs; simpl.
  - by destruct (strlen rest).
  - apply not_elem_of_cons in Hs as [Hc Hs].
    destruct (Z.eqb_spec c 0) as [?|_]; [congruence|].
    rewrite IH by done. by destruct (strlen rest).
Qed.

Lemma strlen_no_nul (s : list Z) : 0 ∉ s -> strlen s = None.
Proof.
  intros Hs. rewrite <- (app_nil_r s). by rewrite strlen_app.
Qed.

Lemma strlen_c_str (a : list Z) (k : nat) :
  strlen a = Some k -> length (c_str a) = k.
Proof.
  revert k. induction a as [|c a IH]; intros k H; simpl in *; [done|].
  destruct (c =? 0); [by simplify_eq|].
  destruct (strlen a) as [j|]; simplify_eq/=. by rewrite (IH j).
Qed.

Lemma strncpy_short (s : list Z) (n : nat) :
  (length s <= n)%nat ->
  strncpy s (Z.of_nat n) = s ++ replicate (n - length s) 0.
Proof.
  intros H. unfold strncpy. rewrite Nat2Z.id.
  rewrite take_app_ge by done. by rewrite take_replicate, Nat.min_l by lia.
Qed.

Lemma strncpy_long (s : list Z) (n : nat) :
  (n <= length s)%nat -> strncpy s (Z.of_nat n) = take n s.
Proof.
  intros H. unfold strncpy. rewrite Nat2Z.id. by rewrite take_app_le.
Qed.

(** [strncpy] of a string, then [strncat] of another with the room that is
    left, as lines 247-250 do it. *)
Lemma strncat_after_strncpy (path src : list Z) (n : nat) :
  0 ∉ path -> 0 ∉ src ->
  (len ← strlen (strncpy path (Z.of_nat n));
   strncat (strncpy path (Z.of_nat n)) src (n - len))
  = if decide (length path + length src < n)%nat
    then Some (strncpy (path ++ src) (Z.of_nat n))
    else None.
Proof.
  intros Hpath Hsrc.
  destruct (Nat.le_gt_cases n (length path)) as [Hlong|Hshort].
  - rewrite strncpy_long by done.
    rewrite strlen_no_nul.
    + simpl. case_decide; [lia|done].
    + intros Hin. apply Hpath. by apply (subseteq_take n path).
  - rewrite strncpy_short by lia.
    rewrite strlen_app by done.
    replace (n - length path)%nat with (S (n - length path - 1)) at 1 by lia.
    cbn [replicate strlen]. simpl.
    rewrite Nat.add_0_r.
    unfold strncat. rewrite strlen_app by done.
    replace (n - length path)%nat with (S (n - length path - 1)) at 1 by lia.
    cbn [replicate strlen]. simpl. rewrite Nat.add_0_r.
    rewrite c_str_id by done.
    rewrite take_app_length.
    rewrite length_app, length_replicate, length_take.
    case_decide as Hfit.
    + rewrite Nat.min_r by lia.
      destruct (Nat.ltb_spec (length path + length src)
                  (length path + (n - length path))); [|lia].
      f_equal. rewrite take_ge by lia.
      rewrite strncpy_short by (rewrite length_app; lia).
      rewrite <- app_assoc. do 2 f_equal.
      rewrite drop_app_ge by lia. rewrite drop_replicate, length_app.
      replace (n - (length path + length src))%nat
        with (S (n - length path - (length path + length src + 1 - length path)))
        by lia.
      done.
    + destruct (Nat.ltb_spec
                  (length path + min (n - length path) (length src))
                  (length path + (n - length path))); [lia|done].
Qed.

Lemma c_str_app_nul (s rest : list Z) : 0 ∈ s -> c_str (s ++ rest) = c_str s.
Proof.
  induction s as [|c s IH]; intros Hs; [by apply elem_of_nil in Hs|]. simpl.
  destruct (Z.eqb_spec c 0) as [?|Hc]; [done|].
  apply elem_of_cons in Hs as [?|Hs]; [congruence|]. by rewrite IH.
Qed.

Lemma c_str_no_nul (a : list Z) : 0 ∉ c_str a.
Proof.
  induction a as [|c a IH]; simpl; [apply not_elem_of_nil|].
  destruct (Z.eqb_spec c 0) as [?|Hc]; [apply not_elem_of_nil|].
  apply not_elem_of_cons. split; [congruence|done].
Qed.

Lemma strlen_lt (a : list Z) (k : nat) :
  strlen a = Some k -> (k < length a)%nat.
Proof.
  revert k. induction a as [|c a IH]; intros k H; simpl in *; [done|].
  destruct (c =? 0); [simplify_eq; lia|].
  destruct (strlen a) as [j|]; simplify_eq/=. specialize (IH j eq_refl). lia.
Qed.

Lemma length_strncpy src n : length (strncpy src n) = Z.to_nat n.
Proof.
  unfold strncpy. rewrite length_take, length_app, length_replicate. lia.
Qed.

Lemma c_str_strncpy (s : list Z) (n : nat) :
  0 ∉ s -> (length s < n)%nat -> c_str (strncpy s (Z.of_nat n)) = s.
Proof.
  intros Hs Hlen. rewrite strncpy_short by lia. rewrite c_str_app by done.
  replace (n - length s)%nat with (S (n - length s - 1)) by lia.
  simpl. by rewrite app_nil_r.
Qed.

Lemma holds_string_nul (s rest : list Z) :
  holds_string (s ++ 0 :: rest) = true.
Proof.
  unfold holds_string. induction s as [|c s IH]; simpl; [done|].
  destruct (c =? 0); [done|]. by destruct (strlen (s ++ 0 :: rest)).
Qed.


Lemma holds_string_strncpy (s : list Z) (n : nat) :
  (length s < n)%nat -> holds_string (strncpy s (Z.of_nat n)) = true.
Proof.
  intros H. rewrite strncpy_short by lia.
  replace (n - length s)%nat with (S (n - length s - 1)) by lia.
  apply holds_string_nul.
Qed.

Lemma holds_string_zeros (n : nat) :
  (0 < n)%nat -> holds_string (replicate n 0) = true.
Proof.
  intros H. replace n with (S (n - 1)) by lia. apply (holds_string_nul []).
Qed.

Lemma holds_string_elem (a : list Z) : holds_string a = true <-> 0 ∈ a.
Proof.
  unfold holds_string. induction a as [|c a IH]; simpl.
  - split; [done|]. intros H. by apply elem_of_nil in H.
  - destruct (Z.eqb_spec c 0) as [->|Hc].
    + split; [intros _; apply list_elem_of_here|done].
    + rewrite elem_of_cons. destruct (strlen a); simpl in *.
      * split; [intros _; right; by apply IH|done].
      * split; [done|]. intros [?|H]; [congruence|]. by apply IH in H.
Qed.

(** ** What the event loop leaves alone *)

Ltac event_cases :=
  unfold handle_event in *;
  repeat first [ progress simplify_option_eq | case_match ].

Lemma handle_event_buffers plugin sf ev plugin' sf' eff :
  handle_event plugin sf ev = Some (plugin', sf', eff) ->
  samp plugin' = samp plugin
  /\ info (pending_samp plugin') = info (pending_samp plugin)
  /\ data (pending_samp plugin') = data (pending_samp plugin)
  /\ pending_sample_ready plugin' = pending_sample_ready plugin
  /\ uris plugin' = uris plugin.
Proof. intros H. event_cases; done. Qed.

Lemma process_events_buffers evs : forall plugin sf plugin' sf' eff,
  process_events plugin sf evs = Some (plugin', sf', eff) ->
  samp plugin' = samp plugin
  /\ info (pending_samp plugin') = info (pending_samp plugin)
  /\ data (pending_samp plugin') = data (pending_samp plugin)
  /\ pending_sample_ready plugin' = pending_sample_ready plugin
  /\ uris plugin' = uris plugin.
Proof.
  induction evs as [|ev evs IH]; intros plugin sf plugin' sf' eff H; simpl in H.
  - by simplify_eq.
  - destruct (handle_event plugin sf ev) as [[[p1 s1] e1]|] eqn:H1;
      simpl in H; [|done].
    destruct (process_events p1 s1 evs) as [[[p2 s2] e2]|] eqn:H2;
      simpl in H; [|done].
    simplify_eq.
    apply handle_event_buffers in H1. apply IH in H2.
    intuition congruence.
Qed.

(** ** The loops in closed form *)

Lemma store_middle (pre : list F32.t) x rest v :
  store (pre ++ x :: rest) (Z.of_nat (length pre)) v = Some (pre ++ v :: rest).
Proof.
  unfold store. rewrite length_app, Nat2Z.id. simpl.
  replace (0 <=? Z.of_nat (length pre)) with true by (symmetry; apply Z.leb_le; lia).
  replace (Z.of_nat (length pre) <? Z.of_nat (length pre + S (length rest)))
    with true by (symmetry; apply Z.ltb_lt; lia).
  simpl. f_equal.
  replace (length pre) with (length pre + 0)%nat at 1 by lia.
  by rewrite insert_app_r.
Qed.

Lemma silence_app n : forall (pre rest : list F32.t),
  (n <= length rest)%nat ->
  silence n (Z.of_nat (length pre)) (pre ++ rest)
  = Some (Z.of_nat (length pre + n),
          pre ++ replicate n F32.zero ++ drop n rest).
Proof.
  induction n as [|n IH]; intros pre rest Hn.
  - simpl. by rewrite Nat.add_0_r, drop_0.
  - destruct rest as [|x rest]; [simpl in Hn; lia|].
    simpl in Hn. cbn [silence]. rewrite store_middle. simpl.
    replace (Z.of_nat (length pre) + 1) with (Z.of_nat (length (pre ++ [F32.zero])))
      by (rewrite length_app; simpl; lia).
    rewrite (cons_middle F32.zero pre rest), app_assoc.
    rewrite IH by lia.
    rewrite length_app. simpl.
    rewrite <- app_assoc. simpl.
    do 2 f_equal. lia.
Qed.

Lemma copy_frames_app n : forall (l pre rest : list F32.t) (lf f : nat),
  (n <= length rest)%nat ->
  (lf <= length l)%nat ->
  copy_frames n (Live l) (Z.of_nat lf) (Z.of_nat (length pre)) (Z.of_nat f)
              (pre ++ rest)
  = Some (Z.of_nat (length pre + min n (lf - f)),
          Z.of_nat (f + min n (lf - f)),
          pre ++ take (min n (lf - f)) (drop f l)
              ++ drop (min n (lf - f)) rest).
Proof.
  induction n as [|n IH]; intros l pre rest lf f Hn Hlf.
  - simpl. by rewrite !Nat.add_0_r, drop_0.
  - cbn [copy_frames].
    destruct (Z.ltb_spec (Z.of_nat f) (Z.of_nat lf)) as [Hlt|Hge].
    + destruct rest as [|x rest]; [simpl in Hn; lia|]. simpl in Hn.
      destruct (lookup_lt_is_Some_2 l f) as [v Hv]; [lia|].
      replace (min (S n) (lf - f)) with (S (min n (lf - S f))) by lia.
      unfold fetch.
      replace (0 <=? Z.of_nat f) with true by (symmetry; apply Z.leb_le; lia).
      rewrite Nat2Z.id, Hv. simpl.
      rewrite store_middle. simpl.
      replace (Z.of_nat (length pre) + 1) with (Z.of_nat (length (pre ++ [v])))
        by (rewrite length_app; simpl; lia).
      replace (Z.of_nat f + 1) with (Z.of_nat (S f)) by lia.
      rewrite (cons_middle v pre rest), app_assoc.
      rewrite IH by lia.
      rewrite length_app, <- app_assoc, (drop_S l v f Hv). simpl.
      do 3 f_equal; lia.
    + replace (min (S n) (lf - f)) with 0%nat by lia.
      simpl. by rewrite !Nat.add_0_r.
Qed.

(** [render] on a playing plugin whose cursor and frame count, narrowed to
    32 bits, are [f] and [lf], for a note starting at [k]. *)
Lemma render_playing plugin (k n lf f : nat) (output l : list F32.t) :
  play plugin = true ->
  data (samp plugin) = Live l ->
  to_uint32 (frames (info (samp plugin))) = Z.of_nat lf ->
  to_uint32 (frame plugin) = Z.of_nat f ->
  (lf <= length l)%nat ->
  (k <= n)%nat ->
  length output = n ->
  let m := min (n - k) (lf - f) in
  let plugin1 := set_frame (Z.of_nat (f + m)) plugin in
  render plugin (Z.of_nat k) output (Z.of_nat n)
  = Some (if Z.of_nat (f + m) =? Z.of_nat lf
          then set_play false plugin1 else plugin1,
          Z.of_nat (k + m),
          replicate k F32.zero ++ take m (drop f l) ++ drop (k + m) output).
Proof.
  intros Hplay Hdata Hlf Hf Hl Hk Hout m plugin1.
  unfold render. rewrite Hplay, Hdata, Hlf, Hf, Nat2Z.id.
  pose proof (silence_app k [] output ltac:(lia)) as Hs. simpl in Hs.
  change (Z.of_nat 0) with 0 in Hs.
  rewrite Hs. clear Hs. cbn [mbind option_bind].
  rewrite <- (length_replicate k F32.zero) at 1 2.
  replace (Z.to_nat (Z.of_nat n - Z.of_nat (length (replicate k F32.zero))))
    with (n - k)%nat by (rewrite length_replicate; lia).
  rewrite copy_frames_app; [|rewrite length_drop; lia|lia].
  cbn [mbind option_bind]. rewrite length_replicate, drop_drop.
  reflexivity.
Qed.

(** ** Note-on events *)

Lemma handle_event_note_on plugin sf ev :
  is_note_on (uris plugin) ev = true ->
  handle_event plugin sf ev
  = Some (set_play true (set_frame 0 plugin), time_frames ev, []).
Proof.
  unfold is_note_on, handle_event. intros H.
  apply andb_true_iff in H as [-> H].
  destruct (atom_bytes (body ev)) as [[|d0 ds]|]; try done.
  simpl. by rewrite H.
Qed.

Lemma handle_event_other plugin sf ev plugin' sf' eff :
  is_note_on (uris plugin) ev = false ->
  handle_event plugin sf ev = Some (plugin', sf', eff) ->
  play plugin' = play plugin /\ frame plugin' = frame plugin /\ sf' = sf.
Proof.
  unfold is_note_on. intros Hn H.
  event_cases; try done.
  all: simpl in Hn; rewrite ?andb_true_l in Hn; congruence.
Qed.

Lemma process_events_app evs1 : forall evs2 plugin sf,
  process_events plugin sf (evs1 ++ evs2)
  = '(plugin1, sf1, eff1) ← process_events plugin sf evs1;
    '(plugin2, sf2, eff2) ← process_events plugin1 sf1 evs2;
    Some (plugin2, sf2, eff1 ++ eff2).
Proof.
  induction evs1 as [|ev evs1 IH]; intros evs2 plugin sf; simpl.
  - by destruct (process_events plugin sf evs2) as [[[??]?]|].
  - destruct (handle_event plugin sf ev) as [[[p1 s1] e1]|]; simpl; [|done].
    rewrite IH.
    destruct (process_events p1 s1 evs1) as [[[p2 s2] e2]|]; simpl; [|done].
    destruct (process_events p2 s2 evs2) as [[[p3 s3] e3]|]; simpl; [|done].
    by rewrite app_assoc.
Qed.

Lemma process_events_other evs : forall plugin sf plugin' sf' eff,
  forallb (fun ev => negb (is_note_on (uris plugin) ev)) evs = true ->
  process_events plugin sf evs = Some (plugin', sf', eff) ->
  play plugin' = play plugin /\ frame plugin' = frame plugin /\ sf' = sf.
Proof.
  induction evs as [|ev evs IH]; intros plugin sf plugin' sf' eff Hall H;
    simpl in *.
  - by simplify_eq.
  - apply andb_true_iff in Hall as [Hev Hall].
    apply negb_true_iff in Hev.
    destruct (handle_event plugin sf ev) as [[[p1 s1] e1]|] eqn:H1;
      simpl in H; [|done].
    destruct (process_events p1 s1 evs) as [[[p2 s2] e2]|] eqn:H2;
      simpl in H; [|done].
    simplify_eq.
    pose proof (handle_event_buffers _ _ _ _ _ _ H1) as (_ & _ & _ & _ & Hu).
    apply handle_event_other in H1; [|done].
    apply IH in H2; [|by rewrite Hu].
    intuition congruence.
Qed.

Lemma silence_tail (pre rest : list F32.t) (n pos : nat) :
  pos = length pre ->
  n = (length pre + length rest)%nat ->
  silence (Z.to_nat (Z.of_nat n - Z.of_nat pos)) (Z.of_nat pos) (pre ++ rest)
  = Some (Z.of_nat n, pre ++ replicate (length rest) F32.zero).
Proof.
  intros -> ->.
  replace (Z.to_nat (Z.of_nat (length pre + length rest) - Z.of_nat (length pre)))
    with (length rest) by lia.
  rewrite silence_app by lia.
  by rewrite drop_all, app_nil_r.
Qed.

Lemma install_pending_play plugin plugin' eff :
  install_pending plugin = Some (plugin', eff) ->
  play plugin' = play plugin /\ frame plugin' = frame plugin
  /\ uris plugin' = uris plugin /\ signal plugin' = signal plugin.
Proof.
  unfold install_pending. intros H.
  repeat first [ progress simplify_option_eq | case_match ]; done.
Qed.

Lemma install_pending_live plugin l :
  data (samp plugin) = Live l -> is_Some (install_pending plugin).
Proof.
  unfold install_pending. intros H.
  destruct (negb (play plugin) && ready plugin); [|by eexists].
  simpl. rewrite H. simpl. by eexists.
Qed.

Lemma to_uint32_small x : 0 <= x < 2 ^ 32 -> to_uint32 x = x.
Proof. intros H. unfold to_uint32. by apply Z.mod_small. Qed.

(** ** Rendering a note *)

(** C1.  A block of [n] frames whose events hold a note-on at offset [k],
    the one in effect (no note-on follows it in the block), played from an
    active buffer that holds its [frames] samples, fewer than [2^32]: the
    call writes [k] zeros, then the first [n - k] samples of the active
    buffer (all of them when it is shorter), then zeros up to [n]; the
    plugin is left playing exactly when samples remain, with the cursor
    after the last sample written. *)
Theorem run_note_on_output plugin before note after (k n : nat)
    (output l : list F32.t) :
  is_note_on (uris plugin) note = true ->
  time_frames note = Z.of_nat k ->
  forallb (fun ev => negb (is_note_on (uris plugin) ev)) after = true ->
  is_Some (process_events plugin 0 (before ++ note :: after)) ->
  (k <= n)%nat ->
  length output = n ->
  data (samp plugin) = Live l ->
  frames (info (samp plugin)) = Z.of_nat (length l) ->
  Z.of_nat (length l) < 2 ^ 32 ->
  exists plugin' eff,
    run plugin (before ++ note :: after) output (Z.of_nat n)
    = Some (plugin',
            replicate k F32.zero ++ take (n - k) l
              ++ replicate (n - k - length l) F32.zero,
            eff)
    /\ play plugin' = bool_decide (n - k < length l)%nat
    /\ frame plugin' = Z.of_nat (min (n - k) (length l)).
Proof.
  intros Hnote Htime Hafter [[[pc sc] ec] Hev] Hk Hout Hdata Hframes Hsmall.
  subst n. pose proof Hev as Hsplit. rewrite process_events_app in Hsplit.
  destruct (process_events plugin 0 before) as [[[pa sa] ea]|] eqn:Ha;
    simpl in Hsplit; [|done].
  pose proof (process_events_buffers _ _ _ _ _ _ Ha) as (Hsa & _ & _ & _ & Hua).
  rewrite handle_event_note_on in Hsplit by (by rewrite Hua).
  simpl in Hsplit.
  destruct (process_events (set_play true (set_frame 0 pa)) (time_frames note)
              after) as [[[pb sb] eb]|] eqn:Hb; simpl in Hsplit; [|done].
  injection Hsplit as -> -> Hec.
  pose proof (process_events_buffers _ _ _ _ _ _ Hb) as (Hsb & _).
  apply process_events_other in Hb as (Hplay & Hframe & ->);
    [|by (simpl; rewrite Hua)].
  simpl in Hplay, Hframe, Hsb.
  unfold run. rewrite Hev. cbn [mbind option_bind]. rewrite Htime.
  rewrite (render_playing pc k (length output) (length l) 0 output l);
    try done; try lia; try congruence.
  2:{ rewrite Hsb, Hsa, Hframes. apply to_uint32_small. lia. }
  2:{ by rewrite Hframe. }
  cbn [mbind option_bind].
  rewrite Nat.sub_0_r, drop_0, Nat.add_0_l.
  set (m := min (length output - k) (length l)).
  set (p2 := if Z.of_nat m =? Z.of_nat (length l)
             then set_play false (set_frame (Z.of_nat m) pc)
             else set_frame (Z.of_nat m) pc).
  assert (Hp2 : data (samp p2) = Live l /\ frame p2 = Z.of_nat m
                /\ play p2 = bool_decide (length output - k < length l)%nat).
  { unfold p2. destruct (Z.eqb_spec (Z.of_nat m) (Z.of_nat (length l))) as [E|E];
      simpl; rewrite ?Hplay; (split; [congruence|split; [done|]]);
      symmetry; [apply bool_decide_eq_false|apply bool_decide_eq_true]; lia. }
  destruct Hp2 as (Hd2 & Hf2 & Hpl2).
  destruct (install_pending_live p2 l Hd2) as [[p3 e3] H3].
  rewrite H3. cbn [mbind option_bind].
  apply install_pending_play in H3 as (Hpl3 & Hf3 & _).
  rewrite app_assoc.
  rewrite (silence_tail _ _ (length output) (k + m)).
  - cbn [mbind option_bind]. exists p3, (ec ++ e3). split; [|split].
    + rewrite <- app_assoc, length_drop.
      replace (take m l) with (take (length output - k) l).
      * subst m.
        by replace (length output - (k + min (length output - k) (length l)))%nat
          with (length output - k - length l)%nat by lia.
      * unfold m. by rewrite <- take_take, (take_ge l (length l)) by lia.
    + congruence.
    + congruence.
  - subst m. rewrite length_app, length_replicate, length_take. lia.
  - subst m. rewrite length_app, length_replicate, length_take, length_drop. lia.
Qed.

(** ** Restarting a note *)

Lemma restart_idempotent plugin :
  set_play true (set_frame 0 (set_play true (set_frame 0 plugin)))
  = set_play true (set_frame 0 plugin).
Proof. reflexivity. Qed.

Lemma last_cons_default {A} (l : list A) : forall a d,
  List.last (a :: l) d = List.last l a.
Proof.
  induction l as [|b l IH]; intros a d; [done|].
  change (List.last (a :: b :: l) d) with (List.last (b :: l) d).
  by rewrite !IH.
Qed.

(** C8.  Whatever the playback state, a note-on leaves the plugin playing
    with the cursor at frame 0 and changes nothing else; so does any run of
    note-on events, each of them restarting at frame 0, the last one
    deciding the offset of the note. *)
Theorem note_on_restarts plugin sf ev evs :
  is_note_on (uris plugin) ev = true ->
  forallb (is_note_on (uris plugin)) evs = true ->
  let restarted := set_play true (set_frame 0 plugin) in
  play restarted = true
  /\ frame restarted = 0
  /\ handle_event plugin sf ev = Some (restarted, time_frames ev, [])
  /\ handle_event restarted (time_frames ev) ev
     = Some (restarted, time_frames ev, [])
  /\ process_events plugin sf (ev :: evs)
     = Some (restarted, time_frames (List.last evs ev), []).
Proof.
  intros Hev Hevs restarted.
  split; [done|]. split; [done|].
  split; [by apply handle_event_note_on|].
  split; [by rewrite handle_event_note_on|].
  revert plugin sf ev Hev Hevs restarted.
  induction evs as [|ev' evs IH]; intros plugin sf ev Hev Hevs restarted.
  - simpl. by rewrite handle_event_note_on.
  - apply andb_true_iff in Hevs as [Hev' Hevs].
    specialize (IH (set_play true (set_frame 0 plugin)) (time_frames ev) ev'
                   Hev' Hevs).
    cbn zeta in IH. rewrite restart_idempotent in IH.
    change (process_events plugin sf (ev :: ev' :: evs))
      with ('(p1, s1, e1) ← handle_event plugin sf ev;
            '(p2, s2, e2) ← process_events p1 s1 (ev' :: evs);
            Some (p2, s2, e1 ++ e2)).
    rewrite handle_event_note_on by done. cbn [mbind option_bind].
    rewrite IH. by rewrite last_cons_default.
Qed.

(** ** Events that are set aside *)

Lemma handle_event_rejected plugin sf ev m :
  rejected (uris plugin) ev = Some m ->
  handle_event plugin sf ev = Some (plugin, sf, [Stderr m]).
Proof.
  unfold rejected, handle_event. intros H.
  destruct (atom_type (body ev) =? midi_Event (uris plugin)); [done|].
  destruct ((atom_type (body ev) =? atom_Resource (uris plugin))
            || (atom_type (body ev) =? atom_Blank (uris plugin)));
    [|by simplify_eq].
  destruct (atom_object (body ev)) as [obj|]; [|done]. simpl.
  destruct (obj_type obj =? msg_Set (uris plugin)); [|by simplify_eq].
  destruct (lv2_object_get (obj_props obj) (msg_body (uris plugin)))
    as [b|]; [|by simplify_eq].
  destruct al; [done| |by simplify_eq].
  destruct b as [ty bs|ty i t props]; [done|]. simpl.
  destruct (lv2_object_get props (filename_key (uris plugin)));
    [done|by simplify_eq].
Qed.

(** An event the loop sets aside is reported on the error stream and
    changes neither the plugin nor [start_frame]; the events after it are
    processed as if it were not there; and the block with the event gives
    the plugin and the output of the block without it, the report being the
    only difference. *)
Lemma rejected_contained plugin before ev after output n m :
  rejected (uris plugin) ev = Some m ->
  (forall p sf, uris p = uris plugin ->
     handle_event p sf ev = Some (p, sf, [Stderr m]))
  /\ (forall p sf, uris p = uris plugin ->
        process_events p sf (ev :: after)
        = (fun '(p', sf', eff) => (p', sf', Stderr m :: eff))
            <$> process_events p sf after)
  /\ match run plugin (before ++ after) output n with
     | Some (plugin', output', eff) =>
         exists eff1 eff2,
           eff = eff1 ++ eff2
           /\ run plugin (before ++ ev :: after) output n
              = Some (plugin', output', eff1 ++ Stderr m :: eff2)
     | None => run plugin (before ++ ev :: after) output n = None
     end.
Proof.
  intros Hrej.
  assert (Hone : forall p sf, uris p = uris plugin ->
            handle_event p sf ev = Some (p, sf, [Stderr m])).
  { intros p sf Hu. apply handle_event_rejected. by rewrite Hu. }
  assert (Hrest : forall p sf, uris p = uris plugin ->
            process_events p sf (ev :: after)
            = (fun '(p', sf', eff) => (p', sf', Stderr m :: eff))
                <$> process_events p sf after).
  { intros p sf Hu. simpl. rewrite (Hone p sf Hu). simpl.
    by destruct (process_events p sf after) as [[[??]?]|]. }
  split; [exact Hone|]. split; [exact Hrest|].
  unfold run. rewrite !process_events_app.
  destruct (process_events plugin 0 before) as [[[pa sa] ea]|] eqn:Ha;
    [|done].
  cbn [mbind option_bind].
  pose proof (process_events_buffers _ _ _ _ _ _ Ha) as (_ & _ & _ & _ & Hu).
  rewrite (Hrest pa sa Hu).
  destruct (process_events pa sa after) as [[[pb sb] eb]|]; [|done].
  cbn [mbind option_bind fmap option_fmap option_map].
  destruct (render pb sb output n) as [[[pc pos] out1]|]; [|done].
  cbn [mbind option_bind].
  destruct (install_pending pc) as [[pd ed]|]; [|done].
  cbn [mbind option_bind].
  destruct (silence (Z.to_nat (n - pos)) pos out1) as [[pos' out2]|]; [|done].
  cbn [mbind option_bind].
  exists ea, (eb ++ ed). split.
  - by rewrite app_assoc.
  - by rewrite <- !app_assoc.
Qed.

(** ** The phases of [run] *)

Lemma run_phases plugin events output n plugin' output' eff :
  run plugin events output n = Some (plugin', output', eff) ->
  exists p1 sf e1 p2 pos out1 e2 pos',
    process_events plugin 0 events = Some (p1, sf, e1)
    /\ render p1 sf output n = Some (p2, pos, out1)
    /\ install_pending p2 = Some (plugin', e2)
    /\ silence (Z.to_nat (n - pos)) pos out1 = Some (pos', output')
    /\ eff = e1 ++ e2.
Proof.
  unfold run. intros H.
  destruct (process_events plugin 0 events) as [[[p1 sf] e1]|]; [|done].
  cbn [mbind option_bind] in H.
  destruct (render p1 sf output n) as [[[p2 pos] out1]|] eqn:Hr; [|done].
  cbn [mbind option_bind] in H.
  destruct (install_pending p2) as [[p3 e2]|] eqn:Hi; [|done].
  cbn [mbind option_bind] in H.
  destruct (silence (Z.to_nat (n - pos)) pos out1) as [[pos' out2]|] eqn:Hs;
    [|done].
  cbn [mbind option_bind] in H. simplify_eq.
  by exists p1, sf, e1, p2, pos, out1, e2, pos'.
Qed.

Lemma render_buffers plugin sf output n plugin' pos output' :
  render plugin sf output n = Some (plugin', pos, output') ->
  samp plugin' = samp plugin
  /\ pending_samp plugin' = pending_samp plugin
  /\ pending_sample_ready plugin' = pending_sample_ready plugin
  /\ uris plugin' = uris plugin
  /\ signal plugin' = signal plugin.
Proof.
  unfold render. intros H.
  destruct (play plugin); [|by simplify_eq].
  destruct (silence (Z.to_nat sf) 0 output) as [[pos1 out1]|]; [|done].
  cbn [mbind option_bind] in H.
  destruct (copy_frames _ _ _ _ _ _) as [[[pos2 f2] out2]|]; [|done].
  cbn [mbind option_bind] in H.
  injection H as <- _ _. by case_match.
Qed.

Lemma install_pending_spec plugin plugin' eff :
  install_pending plugin = Some (plugin', eff) ->
  if negb (play plugin) && ready plugin
  then samp plugin' = pending_samp plugin
       /\ filepath (pending_samp plugin') = filepath (samp plugin)
       /\ info (pending_samp plugin') = info (samp plugin)
       /\ free (data (samp plugin)) = Some (data (pending_samp plugin'))
       /\ pending_sample_ready plugin' = 0
       /\ eff = [Free (data (samp plugin))]
  else plugin' = plugin /\ eff = [].
Proof.
  unfold install_pending. intros H.
  destruct (negb (play plugin) && ready plugin); [|by simplify_eq].
  simpl in H.
  destruct (free (data (samp plugin))) as [d|] eqn:Hfree; [|done].
  simpl in H. by simplify_eq.
Qed.

(** ** The swap *)

Lemma to_uint32_range x : 0 <= to_uint32 x < 2 ^ 32.
Proof. unfold to_uint32. apply Z.mod_pos_bound. lia. Qed.

Lemma to_uint32_le x : 0 <= x -> to_uint32 x <= x.
Proof. intros H. unfold to_uint32. apply Z.mod_le; lia. Qed.

Lemma silence_defined n (pos : nat) (output : list F32.t) :
  (pos + n <= length output)%nat ->
  exists output',
    silence n (Z.of_nat pos) output = Some (Z.of_nat (pos + n), output')
    /\ length output' = length output.
Proof.
  intros H.
  pose proof (silence_app n (take pos output) (drop pos output)) as Hs.
  rewrite take_drop, length_take, length_drop in Hs.
  replace (min pos (length output)) with pos in Hs by lia.
  rewrite Hs by lia.
  eexists. split; [done|].
  rewrite !length_app, length_replicate, length_take, !length_drop. lia.
Qed.

Lemma copy_frames_exhausted n d lf pos f output :
  lf <= f -> copy_frames n d lf pos f output = Some (pos, f, output).
Proof.
  intros H. destruct n; [done|]. simpl.
  by destruct (Z.ltb_spec f lf); [lia|].
Qed.

Lemma render_sound plugin (k n : nat) (output : list F32.t) :
  sound (samp plugin) = true ->
  (k <= n)%nat ->
  length output = n ->
  exists plugin' (pos : nat) output',
    render plugin (Z.of_nat k) output (Z.of_nat n)
    = Some (plugin', Z.of_nat pos, output')
    /\ (pos <= n)%nat
    /\ length output' = n
    /\ samp plugin' = samp plugin
    /\ pending_samp plugin' = pending_samp plugin
    /\ pending_sample_ready plugin' = pending_sample_ready plugin.
Proof.
  intros Hsound Hk Hout.
  destruct (play plugin) eqn:Hplay.
  2:{ unfold render. rewrite Hplay. exists plugin, 0%nat, output.
      repeat split; try done; lia. }
  pose proof (to_uint32_range (frames (info (samp plugin)))) as Hlf.
  pose proof (to_uint32_range (frame plugin)) as Hf.
  unfold sound in Hsound.
  destruct (data (samp plugin)) as [|l|] eqn:Hdata; [| |done].
  - apply Z.eqb_eq in Hsound.
    unfold render. rewrite Hplay, Hdata, Hsound, Nat2Z.id.
    destruct (silence_defined k 0 output ltac:(lia)) as (o1 & Hs & Hl1).
    change (Z.of_nat 0) with 0 in Hs. rewrite Hs. cbn [mbind option_bind].
    change (to_uint32 0) with 0.
    rewrite copy_frames_exhausted by lia.
    cbn [mbind option_bind].
    eexists _, (0 + k)%nat, o1. split; [done|].
    split; [lia|]. split; [lia|]. by case_match.
  - apply Z.eqb_eq in Hsound.
    pose proof (to_uint32_le (frames (info (samp plugin))) ltac:(lia)) as Hle.
    rewrite (render_playing plugin k n
               (Z.to_nat (to_uint32 (frames (info (samp plugin)))))
               (Z.to_nat (to_uint32 (frame plugin))) output l);
      try done; try lia.
    set (m := min _ _).
    eexists _, (k + m)%nat, _. split; [done|].
    split; [subst m; lia|].
    split; [|by case_match].
    subst m. rewrite !length_app, length_replicate, length_take, !length_drop.
    lia.
Qed.

(** C2.  [run] installs the pending buffer exactly when it ends idle with
    the ready flag set.  A call that completes has installed it in that
    case: the frame count and the samples of the pending buffer are the
    active ones, the displaced buffer keeps its frame count and loses its
    samples, and the flag is cleared; in every other case the active
    buffer, the pending frame count and samples and the flag are as before,
    and a call that ends playing never changes the active buffer, whatever
    the flag.  And the call does complete: when the events of the block are
    processed and leave the start of the note inside the block, the block
    has [n] frames and the active buffer is sound, [run] returns, and if it
    ends idle with the flag set the pending buffer has become the active
    one, the block it displaced has gone to [free] and the flag is down. *)
Theorem swap_only_idle_and_ready plugin events output n :
  (forall plugin' output' eff,
     run plugin events output n = Some (plugin', output', eff) ->
     (if negb (play plugin') && ready plugin
      then info (samp plugin') = info (pending_samp plugin)
           /\ data (samp plugin') = data (pending_samp plugin)
           /\ info (pending_samp plugin') = info (samp plugin)
           /\ samples (pending_samp plugin') = []
           /\ ready plugin' = false
      else samp plugin' = samp plugin
           /\ info (pending_samp plugin') = info (pending_samp plugin)
           /\ data (pending_samp plugin') = data (pending_samp plugin)
           /\ pending_sample_ready plugin' = pending_sample_ready plugin)
     /\ (play plugin' = true -> samp plugin' = samp plugin))
  /\ (forall p1 sf e1,
        process_events plugin 0 events = Some (p1, sf, e1) ->
        0 <= sf <= n ->
        Z.of_nat (length output) = n ->
        sound (samp plugin) = true ->
        exists plugin' output' eff,
          run plugin events output n = Some (plugin', output', eff)
          /\ (play plugin' = false ->
              ready plugin = true ->
              samp plugin' = pending_samp p1
              /\ info (samp plugin') = info (pending_samp plugin)
              /\ data (samp plugin') = data (pending_samp plugin)
              /\ ready plugin' = false
              /\ eff = e1 ++ [Free (data (samp plugin))])).
Proof.
  split.
  - intros plugin' output' eff H.
    apply run_phases in H
      as (p1 & sf & e1 & p2 & pos & out1 & e2 & pos' & He & Hr & Hi & _ & _).
    apply process_events_buffers in He as (Hs1 & Hi1 & Hd1 & Hr1 & _).
    apply render_buffers in Hr as (Hs2 & Hp2 & Hr2 & _).
    pose proof (install_pending_play _ _ _ Hi) as (Hplay & _).
    apply install_pending_spec in Hi.
    assert (Hready : ready p2 = ready plugin).
    { unfold ready. by rewrite Hr2, Hr1. }
    rewrite Hplay, <- Hready.
    split.
    + destruct (negb (play p2) && ready p2).
      * destruct Hi as (Hs & _ & Hinf & Hfree & Hrdy & _).
        rewrite Hs, Hp2, Hi1, Hd1, Hinf, Hs2, Hs1.
        repeat split; try done.
        -- unfold samples.
           destruct (data (samp p2)); simplify_eq/=; by rewrite <- ?Hfree.
        -- unfold ready. by rewrite Hrdy.
      * destruct Hi as [-> _]. rewrite Hs2, Hp2, Hr2. by repeat split.
    + intros Htrue. rewrite Htrue in Hi. simpl in Hi. destruct Hi as [-> _].
      congruence.
  - intros p1 sf e1 He Hsf Hn Hsound. subst n.
    pose proof (process_events_buffers _ _ _ _ _ _ He)
      as (Hs1 & Hi1 & Hd1 & Hr1 & _).
    destruct (render_sound p1 (Z.to_nat sf) (length output) output)
      as (p2 & pos & out1 & Hr & Hpos & Hlo & Hs2 & Hp2 & Hr2);
      [by rewrite Hs1|lia|done|].
    rewrite Z2Nat.id in Hr by lia.
    assert (Hready : ready p2 = ready plugin).
    { unfold ready. by rewrite Hr2, Hr1. }
    assert (Hfree : exists d, free (data (samp plugin)) = Some d).
    { unfold sound in Hsound.
      destruct (data (samp plugin)); [| |done]; by eexists. }
    destruct Hfree as [d Hfree].
    assert (Hinst : exists p3 e2,
              install_pending p2 = Some (p3, e2)
              /\ play p3 = play p2
              /\ (play p2 = false -> ready plugin = true ->
                  samp p3 = pending_samp p1
                  /\ ready p3 = false
                  /\ e2 = [Free (data (samp plugin))])).
    { unfold install_pending. rewrite Hready.
      destruct (play p2) eqn:Hpl2, (ready plugin) eqn:Hrdy; simpl;
        try (eexists _, _; split; [done|]; split; [done|]; by intros).
      rewrite Hs2, Hs1, Hfree. simpl.
      eexists _, _. split; [done|]. split; [done|]. intros _ _.
      by rewrite Hp2. }
    destruct Hinst as (p3 & e2 & Hi & Hplay & Hswap).
    destruct (silence_defined (length output - pos) pos out1 ltac:(lia))
      as (out2 & Hsl & _).
    exists p3, out2, (e1 ++ e2).
    unfold run. rewrite He. cbn [mbind option_bind].
    rewrite Hr. cbn [mbind option_bind].
    rewrite Hi. cbn [mbind option_bind].
    replace (Z.to_nat (Z.of_nat (length output) - Z.of_nat pos))
      with (length output - pos)%nat by lia.
    rewrite Hsl. cbn [mbind option_bind].
    split; [done|]. intros Hidle Hrdy. rewrite Hplay in Hidle.
    destruct (Hswap Hidle Hrdy) as (Hsamp & Hdown & ->).
    rewrite Hsamp. by rewrite Hi1, Hd1.
Qed.

(** ** Memory released on the real-time path *)

Lemma run_frees_on_install plugin events output n plugin' output' eff :
  run plugin events output n = Some (plugin', output', eff) ->
  play plugin' = false ->
  ready plugin = true ->
  Free (data (samp plugin)) ∈ eff.
Proof.
  intros H Hplay Hready.
  apply run_phases in H
    as (p1 & sf & e1 & p2 & pos & out1 & e2 & pos' & He & Hr & Hi & _ & ->).
  apply process_events_buffers in He as (Hs1 & _ & _ & Hr1 & _).
  apply render_buffers in Hr as (Hs2 & _ & Hr2 & _).
  pose proof (install_pending_play _ _ _ Hi) as (Hp & _).
  apply install_pending_spec in Hi.
  assert (Hready2 : ready p2 = true).
  { unfold ready in *. by rewrite Hr2, Hr1. }
  rewrite <- Hp, Hplay, Hready2 in Hi. simpl in Hi.
  destruct Hi as (_ & _ & _ & _ & _ & ->).
  rewrite Hs2, Hs1. apply elem_of_app. right. apply list_elem_of_here.
Qed.

Lemma handle_event_reports plugin sf ev plugin' sf' eff :
  handle_event plugin sf ev = Some (plugin', sf', eff) ->
  Forall (fun e => exists m, e = Stderr m) eff.
Proof. intros H. event_cases; repeat constructor; by eexists. Qed.

Lemma process_events_reports evs : forall plugin sf plugin' sf' eff,
  process_events plugin sf evs = Some (plugin', sf', eff) ->
  Forall (fun e => exists m, e = Stderr m) eff.
Proof.
  induction evs as [|ev evs IH]; intros plugin sf plugin' sf' eff H;
    simpl in H.
  - simplify_eq. constructor.
  - destruct (handle_event plugin sf ev) as [[[p1 s1] e1]|] eqn:H1;
      simpl in H; [|done].
    destruct (process_events p1 s1 evs) as [[[p2 s2] e2]|] eqn:H2;
      simpl in H; [|done].
    simplify_eq. apply Forall_app. split.
    + by eapply handle_event_reports.
    + by eapply IH.
Qed.

(** [run] prints and, when it installs, releases; it never allocates. *)
Lemma run_never_allocates plugin events output n plugin' output' eff :
  run plugin events output n = Some (plugin', output', eff) ->
  Forall (fun e => (exists m, e = Stderr m) \/ (exists b, e = Free b)) eff.
Proof.
  intros H.
  apply run_phases in H
    as (p1 & sf & e1 & p2 & pos & out1 & e2 & pos' & He & _ & Hi & _ & ->).
  apply process_events_reports in He.
  apply install_pending_spec in Hi.
  apply Forall_app. split.
  - eapply Forall_impl; [exact He|]. intros e Hm. by left.
  - destruct (negb (play p2) && ready p2).
    + destruct Hi as (_ & _ & _ & _ & _ & ->).
      apply Forall_cons. split; [right; by eexists | constructor].
    + destruct Hi as [_ ->]. constructor.
Qed.

(** C3, at a failing input.  With the four-frame sample active and a ready
    buffer pending, an idle call of [run] without events installs the
    pending buffer and passes the samples of the displaced one to [free]
    before it returns. *)
Theorem run_calls_free :
  run Scenario.idle_ready [] Scenario.block6 6
  = Some (mkSampler Scenario.loaded (set_data Released Scenario.loaded)
                    0 0 Scenario.the_uris false 0,
          replicate 6 F32.zero,
          [Free (Live Scenario.four_frames)]).
Proof. vm_compute. reflexivity. Qed.

(** ** Loads that fail *)

Lemma handle_load_sample_frame st plugin :
  samp (handle_load_sample st plugin).1 = samp plugin
  /\ play (handle_load_sample st plugin).1 = play plugin
  /\ frame (handle_load_sample st plugin).1 = frame plugin
  /\ uris (handle_load_sample st plugin).1 = uris plugin
  /\ signal (handle_load_sample st plugin).1 = signal plugin
  /\ filepath (pending_samp (handle_load_sample st plugin).1)
     = filepath (pending_samp plugin).
Proof.
  unfold handle_load_sample. simpl.
  destruct (sf_open st _ _) as [info' [items|]]; [|done].
  destruct ((frames info' =? 0) || negb (channels info' =? 1)); [done|].
  by destruct (malloc_ok st (frames info')).
Qed.

Lemma handle_load_sample_ready st plugin :
  pending_sample_ready (handle_load_sample st plugin).1
  = if load_succeeds st plugin then 1 else 0.
Proof.
  unfold handle_load_sample, load_succeeds, open_pending. simpl.
  destruct (sf_open st _ _) as [info' [items|]]; [|done].
  destruct (frames info' =? 0); [done|].
  destruct (channels info' =? 1); [|done]. simpl.
  by destruct (malloc_ok st (frames info')).
Qed.

Lemma handle_event_sim p q sf ev p' sf' eff :
  same_playback p q ->
  handle_event p sf ev = Some (p', sf', eff) ->
  exists q', handle_event q sf ev = Some (q', sf', eff) /\ same_playback p' q'.
Proof.
  intros (Hs & Hp & Hf & Hu & Hfp) H.
  unfold handle_event in *. rewrite <- Hu, <- Hfp.
  repeat first [ progress simplify_option_eq | case_match ];
    eexists; (split; [reflexivity|]); by repeat split.
Qed.

Lemma process_events_sim evs : forall p q sf p' sf' eff,
  same_playback p q ->
  process_events p sf evs = Some (p', sf', eff) ->
  exists q', process_events q sf evs = Some (q', sf', eff)
             /\ same_playback p' q'.
Proof.
  induction evs as [|ev evs IH]; intros p q sf p' sf' eff Hpq H; simpl in *.
  - simplify_eq. by exists q.
  - destruct (handle_event p sf ev) as [[[p1 s1] e1]|] eqn:H1;
      simpl in H; [|done].
    destruct (process_events p1 s1 evs) as [[[p2 s2] e2]|] eqn:H2;
      simpl in H; [|done].
    simplify_eq.
    destruct (handle_event_sim _ _ _ _ _ _ _ Hpq H1) as (q1 & -> & Hq1).
    destruct (IH _ _ _ _ _ _ Hq1 H2) as (q2 & Hq2 & Hpq2).
    simpl. rewrite Hq2. simpl. by exists q2.
Qed.

Lemma render_sim p q sf output n p' pos output' :
  same_playback p q ->
  render p sf output n = Some (p', pos, output') ->
  exists q', render q sf output n = Some (q', pos, output')
             /\ same_playback p' q'.
Proof.
  intros (Hs & Hp & Hf & Hu & Hfp) H.
  unfold render in *. rewrite <- Hs, <- Hp, <- Hf.
  destruct (play p) eqn:Hplay.
  - destruct (silence (Z.to_nat sf) 0 output) as [[pos1 out1]|]; [|done].
    cbn [mbind option_bind] in *.
    destruct (copy_frames _ _ _ _ _ _) as [[[pos2 f2] out2]|]; [|done].
    cbn [mbind option_bind] in *.
    injection H as <- <- <-. eexists. split; [reflexivity|].
    destruct (f2 =? to_uint32 (frames (info (samp p))));
      repeat split; simpl; congruence.
  - injection H as <- <- <-. exists q. repeat split; congruence.
Qed.

(** C4.  When the file at the pending path does not open, has no frames or
    has a channel count other than one (more than one, in particular), or
    when no memory can be had, the load fails: the first three are reported
    as a failure to open the sample, the ready flag is down afterwards, the
    active buffer (path, frame count, samples) and the playback state are as
    before, and every block the plugin could render before the load it
    renders after it, with the same samples. *)
Theorem failed_load_keeps_active st plugin :
  (open_pending st plugin).2 = None
  \/ frames (open_pending st plugin).1 = 0
  \/ channels (open_pending st plugin).1 <> 1
  \/ malloc_ok st (frames (open_pending st plugin).1) = false ->
  let plugin' := (handle_load_sample st plugin).1 in
  load_succeeds st plugin = false
  /\ ((open_pending st plugin).2 = None
      \/ frames (open_pending st plugin).1 = 0
      \/ channels (open_pending st plugin).1 <> 1 ->
      Stderr (Failed_to_open_sample (filepath (pending_samp plugin)))
        ∈ (handle_load_sample st plugin).2)
  /\ ready plugin' = false
  /\ samp plugin' = samp plugin
  /\ play plugin' = play plugin
  /\ frame plugin' = frame plugin
  /\ forall events output n p1 output1 eff1,
       run plugin events output n = Some (p1, output1, eff1) ->
       exists p2 eff2,
         run plugin' events output n = Some (p2, output1, eff2)
         /\ samp p2 = samp plugin
         /\ play p2 = play p1 /\ frame p2 = frame p1.
Proof.
  intros Hcause plugin'.
  assert (Hfail : load_succeeds st plugin = false).
  { unfold load_succeeds. destruct (open_pending st plugin) as [info' [items|]];
      [|done]. simpl in Hcause.
    destruct Hcause as [?|[->|[Hc| ->]]]; [done|done| |by rewrite andb_false_r].
    destruct (Z.eqb_spec (channels info') 1) as [?|_]; [done|].
    by rewrite andb_false_r. }
  clear Hcause.
  pose proof (handle_load_sample_frame st plugin)
    as (Hs & Hp & Hf & Hu & _ & Hfp).
  pose proof (handle_load_sample_ready st plugin) as Hr.
  rewrite Hfail in Hr. fold plugin' in Hs, Hp, Hf, Hu, Hfp, Hr.
  split; [done|].
  split; [|split; [|split; [|split; [|split]]]]; try done.
  - unfold handle_load_sample, open_pending. simpl.
    destruct (sf_open st _ _) as [info' [items|]]; simpl.
    + intros [?|[->| Hc]]; [done|by repeat constructor|].
      destruct (Z.eqb_spec (channels info') 1) as [?|_]; [done|].
      rewrite orb_true_r. by repeat constructor.
    + intros _. by repeat constructor.
  - unfold ready. by rewrite Hr.
  - intros events output n p1 output1 eff1 Hrun.
    apply run_phases in Hrun
      as (q1 & sf & e1 & q2 & pos & out1 & e2 & pos' & He & Hrd & Hi & Hsl & ->).
    assert (Hsame : same_playback plugin plugin') by by repeat split.
    destruct (process_events_sim _ _ _ _ _ _ _ Hsame He) as (r1 & Hr1 & Hs1).
    destruct (render_sim _ _ _ _ _ _ _ _ Hs1 Hrd) as (r2 & Hr2 & Hs2).
    pose proof (process_events_buffers _ _ _ _ _ _ Hr1) as (Hb1 & _ & _ & Hrdy1 & _).
    pose proof (render_buffers _ _ _ _ _ _ _ Hr2) as (Hb2 & _ & Hrdy2 & _).
    assert (Hi2 : install_pending r2 = Some (r2, [])).
    { unfold install_pending, ready. rewrite Hrdy2, Hrdy1, Hr.
      by rewrite andb_false_r. }
    exists r2, (e1 ++ []).
    unfold run. rewrite Hr1. cbn [mbind option_bind].
    rewrite Hr2. cbn [mbind option_bind].
    rewrite Hi2. cbn [mbind option_bind].
    rewrite Hsl. cbn [mbind option_bind].
    apply install_pending_play in Hi as (Hpl & Hfr & _).
    destruct Hs2 as (_ & Hp2 & Hf2 & _).
    repeat split; congruence.
Qed.

(** ** Who writes the ready flag *)

(** C5, amended.  The loader leaves the flag at 1 when the load succeeds and
    at 0 when it fails, whatever the flag was; [run] never raises it: it
    clears it when it installs the pending buffer, which it does when the
    call ends idle with the flag set, and leaves it alone otherwise. *)
Theorem ready_flag_writers st plugin events output n plugin' output' eff :
  run plugin events output n = Some (plugin', output', eff) ->
  pending_sample_ready (handle_load_sample st plugin).1
  = (if load_succeeds st plugin then 1 else 0)
  /\ pending_sample_ready plugin'
     = (if negb (play plugin') && ready plugin
        then 0 else pending_sample_ready plugin)
  /\ (ready plugin = false -> ready plugin' = false).
Proof.
  intros H. split; [apply handle_load_sample_ready|].
  apply run_phases in H
    as (p1 & sf & e1 & p2 & pos & out1 & e2 & pos' & He & Hr & Hi & _ & _).
  apply process_events_buffers in He as (_ & _ & _ & Hr1 & _).
  apply render_buffers in Hr as (_ & _ & Hr2 & _).
  pose proof (install_pending_play _ _ _ Hi) as (Hplay & _).
  apply install_pending_spec in Hi.
  assert (Hready : ready p2 = ready plugin).
  { unfold ready. by rewrite Hr2, Hr1. }
  rewrite Hplay, <- Hready.
  destruct (negb (play p2) && ready p2) eqn:Hc.
  - destruct Hi as (_ & _ & _ & _ & Hz & _). split; [done|].
    intros _. unfold ready. by rewrite Hz.
  - destruct Hi as [-> _]. split; [congruence|done].
Qed.

(** ** The length of the sample arrays *)

Lemma length_sf_read_float items n :
  length (sf_read_float items n) = Z.to_nat n.
Proof.
  unfold sf_read_float.
  rewrite length_take, length_app, length_replicate. lia.
Qed.

Lemma consistent_ext a b :
  info a = info b -> data a = data b -> consistent a = consistent b.
Proof. unfold consistent, samples. by intros -> ->. Qed.

Lemma consistent_read fp info' items :
  consistent (mkSampleFile fp info' (Live (sf_read_float items (frames info'))))
  = true.
Proof.
  unfold consistent, samples. cbn [data info].
  pose proof (length_sf_read_float items (frames info')) as Hlen.
  destruct (sf_read_float items (frames info')) as [|x l]; [done|].
  apply Z.eqb_eq. rewrite Hlen. cbn [length] in Hlen. lia.
Qed.

Lemma handle_load_sample_consistent st plugin :
  buffers_consistent plugin = true ->
  buffers_consistent (handle_load_sample st plugin).1 = true.
Proof.
  unfold buffers_consistent. intros H.
  apply andb_true_iff in H as [Hs _].
  unfold handle_load_sample, ready. simpl.
  destruct (sf_open st _ _) as [info' [items|]]; simpl;
    [|by rewrite Hs].
  destruct ((frames info' =? 0) || negb (channels info' =? 1)); simpl;
    [by rewrite Hs|].
  destruct (malloc_ok st (frames info')); simpl; [|by rewrite Hs].
  unfold set_data, set_info. simpl. by rewrite Hs, consistent_read.
Qed.

Lemma run_consistent plugin events output n plugin' output' eff :
  run plugin events output n = Some (plugin', output', eff) ->
  buffers_consistent plugin = true ->
  buffers_consistent plugin' = true.
Proof.
  intros H Hc.
  apply run_phases in H
    as (p1 & sf & e1 & p2 & pos & out1 & e2 & pos' & He & Hr & Hi & _ & _).
  apply process_events_buffers in He as (Hs1 & Hi1 & Hd1 & Hr1 & _).
  apply render_buffers in Hr as (Hs2 & Hp2 & Hr2 & _).
  assert (Hc2 : buffers_consistent p2 = true).
  { unfold buffers_consistent, ready in *.
    rewrite Hs2, Hs1, Hr2, Hr1, Hp2.
    by rewrite (consistent_ext (pending_samp p1) (pending_samp plugin)). }
  apply install_pending_spec in Hi.
  destruct (negb (play p2) && ready p2) eqn:Hcond.
  - destruct Hi as (Hs & _ & _ & Hfree & Hz & _).
    apply andb_true_iff in Hcond as [_ Hready].
    unfold buffers_consistent in *. apply andb_true_iff in Hc2 as [_ Hp].
    rewrite Hready in Hp. simpl in Hp.
    unfold ready. by rewrite Hs, Hp, Hz.
  - by destruct Hi as [-> _].
Qed.

Lemma perform_load st plugin p1 :
  perform plugin (Call_load st) = Some p1 ->
  load_defined plugin = true /\ p1 = (handle_load_sample st plugin).1.
Proof.
  unfold perform. destruct (load_defined plugin); [|done].
  by intros [= <-].
Qed.

Lemma perform_restore st value plugin p1 :
  perform plugin (Call_restore st value) = Some p1 ->
  p1 = (restore st value plugin).1.
Proof.
  unfold perform. destruct value as [path|]; [|by intros [= <-]].
  generalize (holds_string (strncpy path STRING_BUF)).
  intros [|] H; [by injection H|discriminate H].
Qed.

Lemma restore_consistent st value plugin :
  buffers_consistent plugin = true ->
  buffers_consistent (restore st value plugin).1 = true.
Proof.
  intros H. destruct value as [path|]; [|exact H].
  unfold restore. cbn [fst]. generalize (strncpy path STRING_BUF). intros fp.
  by apply handle_load_sample_consistent.
Qed.

(** C6, amended.  Every call (a load by the worker, a restore, a block of
    [run]) keeps the sample array of the active buffer empty or as long as
    its frame count, and that of the pending buffer too whenever the ready
    flag is set. *)
Theorem buffers_stay_consistent cs : forall plugin plugin',
  buffers_consistent plugin = true ->
  perform_all plugin cs = Some plugin' ->
  buffers_consistent plugin' = true.
Proof.
  induction cs as [|c cs IH]; intros plugin plugin' Hc H;
    cbn [perform_all] in H.
  - by simplify_eq.
  - destruct (perform plugin c) as [p1|] eqn:Hp;
      cbn [mbind option_bind] in H; [|done].
    apply (IH p1); [|done].
    destruct c as [st|st value|events output n].
    + apply perform_load in Hp as [_ ->].
      by apply handle_load_sample_consistent.
    + apply perform_restore in Hp as ->. by apply restore_consistent.
    + cbn [perform] in Hp.
      destruct (run plugin events output n) as [[[p' o'] e']|] eqn:Hrun;
        [|discriminate Hp].
      cbn [mbind option_bind] in Hp. injection Hp as <-.
      by eapply run_consistent.
Qed.

(** ** The cursor *)





(** ** The order of the stores of a load *)




(** * Further properties *)

(** ** What [run] leaves of the block it is given *)

Lemma store_agree a b pos v :
  0 <= pos -> agree pos a b ->
  match store a pos v, store b pos v with
  | Some a', Some b' => agree (pos + 1) a' b' /\ length a' = length a
  | None, None => True
  | _, _ => False
  end.
Proof.
  intros Hpos [Hlen Htake]. unfold store. rewrite <- Hlen.
  destruct ((0 <=? pos) && (pos <? Z.of_nat (length a))) eqn:Hin; [|done].
  apply andb_true_iff in Hin as [_ Hlt]. apply Z.ltb_lt in Hlt.
  split; [|by rewrite length_insert].
  split; [by rewrite !length_insert|].
  replace (Z.to_nat (pos + 1)) with (S (Z.to_nat pos)) by lia.
  rewrite (take_S_r (<[Z.to_nat pos:=v]> a) _ v)
    by (apply list_lookup_insert_eq; lia).
  rewrite (take_S_r (<[Z.to_nat pos:=v]> b) _ v)
    by (apply list_lookup_insert_eq; lia).
  rewrite !take_insert_ge by lia. by rewrite Htake.
Qed.

Lemma silence_agree n : forall pos a b,
  0 <= pos -> agree pos a b ->
  match silence n pos a, silence n pos b with
  | Some (p1, a'), Some (p2, b') =>
      p1 = pos + Z.of_nat n /\ p2 = p1 /\ agree p1 a' b'
      /\ length a' = length a
  | None, None => True
  | _, _ => False
  end.
Proof.
  induction n as [|n IH]; intros pos a b Hpos Hab; simpl.
  - rewrite Z.add_0_r. by destruct Hab.
  - pose proof (store_agree a b pos F32.zero Hpos Hab) as Hs.
    destruct (store a pos F32.zero) as [a1|], (store b pos F32.zero) as [b1|];
      try done.
    destruct Hs as [Hab1 Hl1]. simpl.
    specialize (IH (pos + 1) a1 b1 ltac:(lia) Hab1).
    destruct (silence n (pos + 1) a1) as [[p1 a']|],
             (silence n (pos + 1) b1) as [[p2 b']|]; try done.
    destruct IH as (-> & -> & Hab' & Hl').
    split; [lia|]. split; [done|]. split; [done|congruence].
Qed.

Lemma copy_frames_agree n : forall d lf pos f a b,
  0 <= pos -> agree pos a b ->
  match copy_frames n d lf pos f a, copy_frames n d lf pos f b with
  | Some (p1, f1, a'), Some (p2, f2, b') =>
      p2 = p1 /\ f2 = f1 /\ pos <= p1 /\ agree p1 a' b'
      /\ length a' = length a
  | None, None => True
  | _, _ => False
  end.
Proof.
  induction n as [|n IH]; intros d lf pos f a b Hpos Hab; simpl.
  - destruct Hab. repeat split; try done; lia.
  - destruct (f <? lf); [|destruct Hab; repeat split; try done; lia].
    destruct (fetch d f) as [v|]; [|done]. simpl.
    pose proof (store_agree a b pos v Hpos Hab) as Hs.
    destruct (store a pos v) as [a1|], (store b pos v) as [b1|]; try done.
    destruct Hs as [Hab1 Hl1]. simpl.
    specialize (IH d lf (pos + 1) (f + 1) a1 b1 ltac:(lia) Hab1).
    destruct (copy_frames n d lf (pos + 1) (f + 1) a1) as [[[p1 f1] a']|],
             (copy_frames n d lf (pos + 1) (f + 1) b1) as [[[p2 f2] b']|];
      try done.
    destruct IH as (-> & -> & Hle & Hab' & Hl').
    split; [done|]. split; [done|]. split; [lia|]. split; [done|congruence].
Qed.

Lemma render_agree plugin sf a b n :
  agree 0 a b ->
  match render plugin sf a n, render plugin sf b n with
  | Some (p1, pos1, a'), Some (p2, pos2, b') =>
      p2 = p1 /\ pos2 = pos1 /\ 0 <= pos1 /\ agree pos1 a' b'
      /\ length a' = length a
  | None, None => True
  | _, _ => False
  end.
Proof.
  intros Hab. unfold render.
  destruct (play plugin); [|by destruct Hab].
  pose proof (silence_agree (Z.to_nat sf) 0 a b ltac:(lia) Hab) as Hs.
  destruct (silence (Z.to_nat sf) 0 a) as [[p1 a1]|],
           (silence (Z.to_nat sf) 0 b) as [[p2 b1]|]; try done.
  destruct Hs as (-> & -> & Hab1 & Hl1). cbn [mbind option_bind].
  set (pos := 0 + Z.of_nat (Z.to_nat sf)) in *.
  pose proof (copy_frames_agree (Z.to_nat (n - pos)) (data (samp plugin))
                (to_uint32 (frames (info (samp plugin)))) pos
                (to_uint32 (frame plugin)) a1 b1 ltac:(lia) Hab1) as Hc.
  destruct (copy_frames _ _ _ _ _ a1) as [[[q1 f1] a']|],
           (copy_frames _ _ _ _ _ b1) as [[[q2 f2] b']|]; try done.
  destruct Hc as (-> & -> & Hle & Hab' & Hl'). cbn [mbind option_bind].
  split; [done|]. split; [done|]. split; [lia|]. split; [done|congruence].
Qed.

(** X1.  A call of [run] that completes on a block of [sample_count] frames
    leaves a block of that length in which every frame was written by the
    call: given any other content of the block it completes too, with the
    same plugin, the same samples and the same effects. *)
Theorem run_overwrites_block plugin events output n plugin' output' eff :
  run plugin events output n = Some (plugin', output', eff) ->
  Z.of_nat (length output) = n ->
  length output' = length output
  /\ forall stale : list F32.t,
       length stale = length output ->
       run plugin events stale n = Some (plugin', output', eff).
Proof.
  intros H Hn.
  apply run_phases in H
    as (p1 & sf & e1 & p2 & pos & out1 & e2 & pos' & He & Hr & Hi & Hs & ->).
  assert (Hgen : forall other : list F32.t,
            length other = length output ->
            length output' = length output
            /\ run plugin events other n = Some (plugin', output', e1 ++ e2)).
  { intros other Hlen.
    assert (Hab : agree 0 output other) by (split; [done|by rewrite !take_0]).
    pose proof (render_agree p1 sf output other n Hab) as Hra.
    rewrite Hr in Hra.
    destruct (render p1 sf other n) as [[[q2 qpos] o1]|] eqn:Hr2; [|done].
    destruct Hra as (-> & -> & Hpos & Hab1 & Hl1).
    pose proof (silence_agree (Z.to_nat (n - pos)) pos out1 o1 Hpos Hab1) as Hsa.
    rewrite Hs in Hsa.
    destruct (silence (Z.to_nat (n - pos)) pos o1) as [[qpos' o2]|] eqn:Hs2;
      [|done].
    destruct Hsa as (-> & -> & [Hl2 Ht2] & Hl3).
    assert (Hfull : output' = o2).
    { rewrite !take_ge in Ht2 by lia. done. }
    subst o2. split; [congruence|].
    unfold run. rewrite He. cbn [mbind option_bind].
    rewrite Hr2. cbn [mbind option_bind].
    rewrite Hi. cbn [mbind option_bind].
    rewrite Hs2. done. }
  split; [by apply (Hgen output)|].
  intros stale Hlen. by apply Hgen.
Qed.

(** ** Calls with defined behaviour *)

Lemma length_memcpy dst src fp :
  memcpy dst src = Some fp -> length fp = length dst.
Proof.
  unfold memcpy. destruct (Nat.leb_spec (length src) (length dst)); [|done].
  intros [= <-]. rewrite length_app, length_drop. lia.
Qed.



Lemma well_formed_iff p :
  well_formed p = true <->
  sound (samp p) = true
  /\ (ready p = true -> decoded (pending_samp p) = true)
  /\ length (filepath (samp p)) = Z.to_nat STRING_BUF
  /\ length (filepath (pending_samp p)) = Z.to_nat STRING_BUF
  /\ holds_string (filepath (samp p)) = true
  /\ holds_string (filepath (pending_samp p)) = true.
Proof.
  unfold well_formed. rewrite !andb_true_iff, !Nat.eqb_eq.
  destruct (ready p); simpl; split.
  - intros [[[[[? ?] ?] ?] ?] ?]. auto 10.
  - intros (? & Hd & ? & ? & ? & ?). auto 10.
  - intros [[[[[? ?] ?] ?] ?] ?]. repeat split; auto. discriminate.
  - intros (? & Hd & ? & ? & ? & ?). auto 10.
Qed.



Lemma handle_load_sample_uris st plugin :
  uris (handle_load_sample st plugin).1 = uris plugin.
Proof. apply (handle_load_sample_frame st plugin). Qed.

Lemma handle_load_sample_well_formed st plugin :
  frames_not_negative st ->
  sound (samp plugin) = true ->
  length (filepath (samp plugin)) = Z.to_nat STRING_BUF ->
  length (filepath (pending_samp plugin)) = Z.to_nat STRING_BUF ->
  holds_string (filepath (samp plugin)) = true ->
  holds_string (filepath (pending_samp plugin)) = true ->
  well_formed (handle_load_sample st plugin).1 = true.
Proof.
  intros Hst Hsound Hl1 Hl2 Hn1 Hn2.
  pose proof (handle_load_sample_frame st plugin)
    as (Hs & _ & _ & _ & _ & Hfp).
  apply well_formed_iff. rewrite Hs, Hfp.
  split; [done|]. split; [|done].
  specialize (Hst (filepath (pending_samp plugin))
                  (info (pending_samp plugin))).
  unfold handle_load_sample, ready, decoded. simpl.
  destruct (sf_open st _ _) as [info' [items|]]; simpl in *; [|done].
  destruct ((frames info' =? 0) || negb (channels info' =? 1)); [done|].
  destruct (malloc_ok st (frames info')); [|done].
  simpl. intros _. rewrite length_sf_read_float. apply Z.eqb_eq. lia.
Qed.


(** ** Blocks in closed form *)

(** [run] once the events are processed and have left the plugin playing a
    note that starts at [k], with cursor [f] and frame count [lf]. *)
Lemma run_playing_from plugin events p1 e1 (k n lf f : nat)
    (output l : list F32.t) :
  process_events plugin 0 events = Some (p1, Z.of_nat k, e1) ->
  play p1 = true ->
  data (samp p1) = Live l ->
  to_uint32 (frames (info (samp p1))) = Z.of_nat lf ->
  to_uint32 (frame p1) = Z.of_nat f ->
  (lf <= length l)%nat ->
  (k <= n)%nat ->
  length output = n ->
  let m := min (n - k) (lf - f) in
  let p2 := if Z.of_nat (f + m) =? Z.of_nat lf
            then set_play false (set_frame (Z.of_nat (f + m)) p1)
            else set_frame (Z.of_nat (f + m)) p1 in
  run plugin events output (Z.of_nat n)
  = '(p3, e2) ← install_pending p2;
    Some (p3,
          replicate k F32.zero ++ take m (drop f l)
            ++ replicate (n - k - m) F32.zero,
          e1 ++ e2).
Proof.
  intros He Hplay Hdata Hlf Hf Hl Hk Hout m p2.
  unfold run. rewrite He. cbn [mbind option_bind].
  rewrite (render_playing p1 k n lf f output l) by done.
  cbn [mbind option_bind]. fold m. fold p2.
  destruct (install_pending p2) as [[p3 e2]|]; [|done].
  cbn [mbind option_bind].
  rewrite app_assoc.
  rewrite (silence_tail _ _ n (k + m)).
  - cbn [mbind option_bind]. rewrite <- app_assoc, length_drop.
    by replace (length output - (k + m))%nat with (n - k - m)%nat by lia.
  - subst m. rewrite length_app, length_replicate, length_take, length_drop. lia.
  - subst m. rewrite length_app, length_replicate, length_take, !length_drop.
    lia.
Qed.

(** [run] once the events are processed and have left the plugin idle. *)
Lemma run_idle_from plugin events p1 sf e1 (output : list F32.t) :
  process_events plugin 0 events = Some (p1, sf, e1) ->
  play p1 = false ->
  run plugin events output (Z.of_nat (length output))
  = '(p3, e2) ← install_pending p1;
    Some (p3, replicate (length output) F32.zero, e1 ++ e2).
Proof.
  intros He Hplay.
  unfold run. rewrite He. cbn [mbind option_bind].
  unfold render. rewrite Hplay. cbn [mbind option_bind].
  destruct (install_pending p1) as [[p3 e2]|]; [|done].
  cbn [mbind option_bind].
  pose proof (silence_tail [] output (length output) 0 eq_refl eq_refl) as Hs.
  simpl in Hs. rewrite Z.sub_0_r in *. change (Z.of_nat 0) with 0 in Hs.
  by rewrite Hs.
Qed.

(** X3.  A block that starts idle and holds no note-on is silent: a call of
    [run] that completes writes zeros over the whole block and leaves the
    plugin idle with its cursor where it was, whatever the buffers hold. *)
Theorem idle_block_is_silent plugin events output plugin' output' eff :
  play plugin = false ->
  forallb (fun ev => negb (is_note_on (uris plugin) ev)) events = true ->
  run plugin events output (Z.of_nat (length output))
  = Some (plugin', output', eff) ->
  output' = replicate (length output) F32.zero
  /\ play plugin' = false
  /\ frame plugin' = frame plugin.
Proof.
  intros Hplay Hnone Hrun.
  pose proof Hrun as Hph.
  apply run_phases in Hph as (p1 & sf & e1 & _ & _ & _ & _ & _ & He & _).
  pose proof (process_events_other _ _ _ _ _ _ Hnone He) as (Hp1 & Hf1 & _).
  rewrite (run_idle_from plugin events p1 sf e1 output He) in Hrun
    by congruence.
  destruct (install_pending p1) as [[p3 e2]|] eqn:Hi; [|done].
  cbn [mbind option_bind] in Hrun. injection Hrun as <- <- _.
  apply install_pending_play in Hi as (Hp3 & Hf3 & _).
  split; [done|]. split; congruence.
Qed.

(** X4.  A note in progress continues where the last block stopped: when the
    plugin plays with its cursor at [f] in an active buffer that holds its
    frames (fewer than [2^32]) and the block has no note-on, the call
    writes the samples from [f] on, as many as the block takes, then zeros;
    the cursor moves by the number of samples written and the plugin stays
    playing exactly when samples are left. *)
Theorem note_continues plugin events (n f : nat) (output l : list F32.t) :
  play plugin = true ->
  forallb (fun ev => negb (is_note_on (uris plugin) ev)) events = true ->
  is_Some (process_events plugin 0 events) ->
  data (samp plugin) = Live l ->
  frames (info (samp plugin)) = Z.of_nat (length l) ->
  Z.of_nat (length l) < 2 ^ 32 ->
  frame plugin = Z.of_nat f ->
  (f <= length l)%nat ->
  length output = n ->
  exists plugin' eff,
    run plugin events output (Z.of_nat n)
    = Some (plugin',
            take n (drop f l) ++ replicate (n - (length l - f)) F32.zero,
            eff)
    /\ play plugin' = bool_decide (n < length l - f)%nat
    /\ frame plugin' = Z.of_nat (f + min n (length l - f)).
Proof.
  intros Hplay Hnone [[[p1 sf] e1] He] Hdata Hframes Hsmall Hframe Hf Hout.
  pose proof (process_events_buffers _ _ _ _ _ _ He) as (Hs1 & _).
  pose proof (process_events_other _ _ _ _ _ _ Hnone He) as (Hp1 & Hf1 & ->).
  pose proof (run_playing_from plugin events p1 e1 0 n (length l) f output l)
    as Hrun.
  cbn zeta in Hrun. rewrite Nat.sub_0_r in Hrun.
  rewrite Hrun; clear Hrun; try done; try lia; try congruence.
  2:{ rewrite Hs1, Hframes. apply to_uint32_small. lia. }
  2:{ rewrite Hf1, Hframe. apply to_uint32_small. lia. }
  set (m := min n (length l - f)).
  set (p2 := if _ =? _ then _ else _).
  assert (Hp2 : data (samp p2) = Live l /\ frame p2 = Z.of_nat (f + m)
                /\ play p2 = bool_decide (n < length l - f)%nat).
  { unfold p2.
    destruct (Z.eqb_spec (Z.of_nat (f + m)) (Z.of_nat (length l))) as [E|E];
      simpl; rewrite ?Hp1, ?Hplay; (split; [congruence|split; [done|]]);
      symmetry; [apply bool_decide_eq_false|apply bool_decide_eq_true];
      subst m; lia. }
  destruct Hp2 as (Hd2 & Hf2 & Hpl2).
  destruct (install_pending_live p2 l Hd2) as [[p3 e3] H3].
  rewrite H3. cbn [mbind option_bind].
  apply install_pending_play in H3 as (Hpl3 & Hf3 & _).
  exists p3, (e1 ++ e3). split; [|split; congruence].
  simpl.
  replace (take m (drop f l)) with (take n (drop f l)).
  - by replace (n - m)%nat with (n - (length l - f))%nat by (subst m; lia).
  - subst m. rewrite <- take_take.
    by rewrite (take_ge (drop f l) (length l - f)) by (rewrite length_drop; lia).
Qed.

Lemma install_pending_settles plugin plugin' eff :
  install_pending plugin = Some (plugin', eff) ->
  play plugin = false ->
  install_pending plugin' = Some (plugin', []).
Proof.
  intros H Hplay.
  pose proof (install_pending_play _ _ _ H) as (Hp & _).
  apply install_pending_spec in H. rewrite Hplay in H. simpl in H.
  unfold install_pending.
  destruct (ready plugin) eqn:Hr.
  - destruct H as (_ & _ & _ & _ & Hz & _).
    unfold ready. by rewrite Hz, andb_false_r.
  - destruct H as [-> _]. by rewrite Hr, andb_false_r.
Qed.

Lemma install_pending_playing plugin :
  play plugin = true -> install_pending plugin = Some (plugin, []).
Proof. unfold install_pending. by intros ->. Qed.

Lemma run_idle_settled plugin (output : list F32.t) :
  play plugin = false ->
  install_pending plugin = Some (plugin, []) ->
  run plugin [] output (Z.of_nat (length output))
  = Some (plugin, replicate (length output) F32.zero, []).
Proof.
  intros Hplay Hi.
  rewrite (run_idle_from plugin [] plugin 0 [] output eq_refl Hplay).
  by rewrite Hi.
Qed.

(** X5.  Rendering does not depend on where the host cuts the blocks: with
    an active buffer that holds its frames (fewer than [2^32]) and the
    cursor inside it, a block without events gives the samples, the plugin
    and the effects of its first part followed by its second part, each
    rendered as a block without events of its own. *)
Theorem blocks_compose plugin (out1 out2 l : list F32.t) (f : nat) :
  data (samp plugin) = Live l ->
  frames (info (samp plugin)) = Z.of_nat (length l) ->
  Z.of_nat (length l) < 2 ^ 32 ->
  frame plugin = Z.of_nat f ->
  (f <= length l)%nat ->
  run plugin [] (out1 ++ out2) (Z.of_nat (length (out1 ++ out2)))
  = '(p1, o1, e1) ← run plugin [] out1 (Z.of_nat (length out1));
    '(p2, o2, e2) ← run p1 [] out2 (Z.of_nat (length out2));
    Some (p2, o1 ++ o2, e1 ++ e2).
Proof.
  intros Hdata Hframes Hsmall Hframe Hf.
  assert (Hlf : to_uint32 (frames (info (samp plugin)))
                = Z.of_nat (length l)).
  { rewrite Hframes. apply to_uint32_small. lia. }
  assert (Hfu : to_uint32 (frame plugin) = Z.of_nat f).
  { rewrite Hframe. apply to_uint32_small. lia. }
  destruct (play plugin) eqn:Hplay.
  - pose proof (run_playing_from plugin [] plugin [] 0
                  (length (out1 ++ out2)) (length l) f (out1 ++ out2) l
                  eq_refl Hplay Hdata Hlf Hfu ltac:(lia) ltac:(lia) eq_refl)
      as Hbig.
    pose proof (run_playing_from plugin [] plugin [] 0
                  (length out1) (length l) f out1 l
                  eq_refl Hplay Hdata Hlf Hfu ltac:(lia) ltac:(lia) eq_refl)
      as Hone.
    cbn zeta in Hbig, Hone. rewrite Hbig, Hone. clear Hbig Hone.
    rewrite length_app, !Nat.sub_0_r.
    destruct (Nat.lt_ge_cases (length out1) (length l - f)) as [Hlt|Hge].
    + (* the note outlasts the first part *)
      replace (min (length out1) (length l - f)) with (length out1) by lia.
      destruct (Z.eqb_spec (Z.of_nat (f + length out1))
                           (Z.of_nat (length l))) as [?|_]; [lia|].
      rewrite (install_pending_playing
                 (set_frame (Z.of_nat (f + length out1)) plugin))
        by exact Hplay.
      cbn [mbind option_bind].
      pose proof (run_playing_from (set_frame (Z.of_nat (f + length out1)) plugin)
                    [] (set_frame (Z.of_nat (f + length out1)) plugin) [] 0
                    (length out2) (length l) (f + length out1) out2 l
                    eq_refl Hplay Hdata Hlf) as Htwo.
      cbn zeta in Htwo. rewrite Htwo; clear Htwo; try done; try lia.
      2:{ simpl. apply to_uint32_small. lia. }
      rewrite !Nat.sub_0_r.
      replace (min (length out1 + length out2) (length l - f))
        with (length out1 + min (length out2) (length l - (f + length out1)))%nat
        by lia.
      set (m2 := min (length out2) (length l - (f + length out1))).
      replace (f + (length out1 + m2))%nat with (f + length out1 + m2)%nat
        by lia.
      change (set_frame (Z.of_nat (f + length out1 + m2))
                (set_frame (Z.of_nat (f + length out1)) plugin))
        with (set_frame (Z.of_nat (f + length out1 + m2)) plugin).
      destruct (install_pending _) as [[p3 e3]|]; [|done].
      cbn [mbind option_bind]. simpl.
      rewrite Nat.sub_diag. simpl. rewrite app_nil_r.
      rewrite <- (take_take_drop (drop f l) (length out1) m2), drop_drop.
      rewrite <- !app_assoc.
      by replace (length out1 + length out2 - (length out1 + m2))%nat
        with (length out2 - m2)%nat by lia.
    + (* the note ends in the first part *)
      replace (min (length out1 + length out2) (length l - f))
        with (min (length out1) (length l - f)) by lia.
      set (m := min (length out1) (length l - f)).
      destruct (Z.eqb_spec (Z.of_nat (f + m)) (Z.of_nat (length l)))
        as [_|?]; [|subst m; lia].
      destruct (install_pending _) as [[p3 e3]|] eqn:Hi; [|done].
      cbn [mbind option_bind].
      pose proof (install_pending_play _ _ _ Hi) as (Hp3 & _).
      rewrite (run_idle_settled p3 out2)
        by (first [by rewrite Hp3 | by eapply install_pending_settles]).
      cbn [mbind option_bind]. simpl.
      rewrite app_nil_r, <- !app_assoc, <- replicate_add.
      do 4 f_equal. f_equal. subst m. lia.
  - rewrite (run_idle_from plugin [] plugin 0 [] (out1 ++ out2) eq_refl Hplay).
    rewrite (run_idle_from plugin [] plugin 0 [] out1 eq_refl Hplay).
    destruct (install_pending plugin) as [[p3 e3]|] eqn:Hi; [|done].
    cbn [mbind option_bind].
    pose proof (install_pending_play _ _ _ Hi) as (Hp3 & _).
    rewrite (run_idle_settled p3 out2)
      by (first [by rewrite Hp3 | by eapply install_pending_settles]).
    cbn [mbind option_bind]. simpl.
    by rewrite app_nil_r, length_app, replicate_add.
Qed.

(** ** Requests to load *)

Lemma handle_event_requested plugin sf ev plugin' sf' eff :
  handle_event plugin sf ev = Some (plugin', sf', eff) ->
  match requested (uris plugin) ev with
  | Some str =>
      signal plugin' = S (signal plugin)
      /\ memcpy (filepath (pending_samp plugin)) str
         = Some (filepath (pending_samp plugin'))
      /\ eff = [Stderr (Request_to_load (c_str str))]
      /\ holds_string str = true
  | None =>
      signal plugin' = signal plugin
      /\ filepath (pending_samp plugin') = filepath (pending_samp plugin)
  end.
Proof.
  unfold requested, handle_event. intros H.
  destruct (atom_type (body ev) =? midi_Event (uris plugin)).
  { destruct (atom_bytes (body ev)) as [[|d0 ds]|]; try done. simpl in H.
    by destruct (Z.land d0 240 =? 144); simplify_eq. }
  destruct ((atom_type (body ev) =? atom_Resource (uris plugin))
            || (atom_type (body ev) =? atom_Blank (uris plugin)));
    [|by simplify_eq].
  destruct (atom_object (body ev)) as [obj|]; [|done]. simpl in H.
  destruct (obj_type obj =? msg_Set (uris plugin)); [|by simplify_eq].
  destruct (lv2_object_get (obj_props obj) (msg_body (uris plugin)))
    as [b|]; [|by simplify_eq].
  destruct al; [done| |by destruct b; simplify_eq].
  destruct b as [ty bs|ty i t props]; [done|]. simpl in H.
  destruct (lv2_object_get props (filename_key (uris plugin)))
    as [[ty' str|ty' i' t' props']|]; [|done|by simplify_eq].
  simpl in H. unfold holds_string.
  destruct (strlen str) as [k|]; [|done]. simpl in H.
  destruct (memcpy (filepath (pending_samp plugin)) str) as [fp|]; [|done].
  simpl in H. by simplify_eq.
Qed.

Lemma run_signal plugin events output n plugin' output' eff :
  run plugin events output n = Some (plugin', output', eff) ->
  signal plugin'
  = (signal plugin + length (omap (requested (uris plugin)) events))%nat.
Proof.
  intros H.
  apply run_phases in H
    as (p1 & sf & e1 & p2 & pos & out1 & e2 & pos' & He & Hr & Hi & _ & _).
  apply render_buffers in Hr as (_ & _ & _ & _ & Hs2).
  apply install_pending_play in Hi as (_ & _ & _ & Hs3).
  rewrite Hs3, Hs2. clear Hs3 Hs2 p2 plugin' pos out1 e2 pos' output'.
  revert plugin sf p1 e1 He. generalize 0 at 1.
  induction events as [|ev events IH]; intros sf0 plugin sf p1 e1 He;
    simpl in He.
  - simplify_eq. simpl. lia.
  - destruct (handle_event plugin sf0 ev) as [[[q1 s1] f1]|] eqn:H1;
      simpl in He; [|done].
    destruct (process_events q1 s1 events) as [[[q2 s2] f2]|] eqn:H2;
      simpl in He; [|done].
    simplify_eq.
    pose proof (handle_event_buffers _ _ _ _ _ _ H1) as (_ & _ & _ & _ & Hu).
    apply IH in H2. rewrite Hu in H2.
    apply handle_event_requested in H1.
    unfold omap in H2 |- *. simpl.
    destruct (requested (uris plugin) ev) as [str|].
    + destruct H1 as (Hs & _). simpl. lia.
    + destruct H1 as (Hs & _). lia.
Qed.

(** X6.  [run] posts the semaphore once for every set message it acts on
    and never otherwise: after a call that completes, the count has grown
    by the number of requests in the block.  In a build that reads the
    store of line 285 back these are the set messages whose body carries a
    filename; in a build that does not, and under the reading of the C
    standard, a call that completes acts on no set message and posts
    nothing. *)
Theorem run_posts_per_request plugin events output n plugin' output' eff :
  run plugin events output n = Some (plugin', output', eff) ->
  signal plugin'
  = (signal plugin + length (omap (requested (uris plugin)) events))%nat
  /\ (al <> Store_seen -> signal plugin' = signal plugin).
Proof.
  intros H. apply run_signal in H. split; [done|].
  intros Hal. rewrite H.
  replace (omap (requested (uris plugin)) events) with (@nil (list Z));
    [simpl; lia|].
  symmetry. clear H. induction events as [|ev events IH]; [done|].
  unfold omap in *. cbn [list_omap]. rewrite <- IH.
  unfold requested. destruct al; [|done|]; by repeat case_match.
Qed.

Lemma process_events_no_request evs : forall plugin sf plugin' sf' eff,
  omap (requested (uris plugin)) evs = [] ->
  process_events plugin sf evs = Some (plugin', sf', eff) ->
  filepath (pending_samp plugin') = filepath (pending_samp plugin).
Proof.
  induction evs as [|ev evs IH]; intros plugin sf plugin' sf' eff Hnone H;
    simpl in H.
  - by simplify_eq.
  - destruct (handle_event plugin sf ev) as [[[q1 s1] f1]|] eqn:H1;
      simpl in H; [|done].
    destruct (process_events q1 s1 evs) as [[[q2 s2] f2]|] eqn:H2;
      simpl in H; [|done].
    simplify_eq.
    pose proof (handle_event_buffers _ _ _ _ _ _ H1) as (_ & _ & _ & _ & Hu).
    apply handle_event_requested in H1.
    unfold omap in Hnone. simpl in Hnone.
    destruct (requested (uris plugin) ev) as [str|]; [done|].
    destruct H1 as [_ Hfp]. rewrite <- Hfp.
    eapply IH; [|done]. by rewrite Hu.
Qed.

Lemma handle_load_sample_info st plugin :
  info (pending_samp (handle_load_sample st plugin).1)
  = (sf_open st (filepath (pending_samp plugin))
             (info (pending_samp plugin))).1.
Proof.
  unfold handle_load_sample. simpl.
  destruct (sf_open st _ _) as [info' [items|]]; [|done].
  destruct ((frames info' =? 0) || negb (channels info' =? 1)); [done|].
  by destruct (malloc_ok st (frames info')).
Qed.

(** X7.  A request that arrives in the block that installs the pending
    buffer misses its target, in the build that acts on requests (the one
    that reads the store of line 285 back).  When the block ends idle with
    the ready flag set, the filename of its last request has been copied
    into the buffer that is now active, while the pending buffer, the one
    the worker will load into, carries the path of the buffer that was
    active before: the semaphore has been posted, and the load the worker
    then does opens that old path, not the requested one. *)
Theorem request_lands_in_installed_buffer plugin before ev after str
    output n plugin' output' eff :
  requested (uris plugin) ev = Some str ->
  omap (requested (uris plugin)) after = [] ->
  run plugin (before ++ ev :: after) output n
  = Some (plugin', output', eff) ->
  play plugin' = false ->
  ready plugin = true ->
  take (length str) (filepath (samp plugin')) = str
  /\ filepath (pending_samp plugin') = filepath (samp plugin)
  /\ (0 < signal plugin')%nat
  /\ forall st plugin'',
       worker_thread_main st plugin' plugin'' ->
       info (pending_samp plugin'')
       = (sf_open st (filepath (samp plugin)) (info (samp plugin))).1.
Proof.
  intros Hreq Hnone Hrun Hplay Hready.
  pose proof (run_signal _ _ _ _ _ _ _ Hrun) as Hsig.
  apply run_phases in Hrun
    as (p1 & sf & e1 & p2 & pos & out1 & e2 & pos' & He & Hr & Hi & _ & _).
  pose proof (process_events_buffers _ _ _ _ _ _ He) as (Hs1 & _ & _ & Hr1 & _).
  rewrite process_events_app in He.
  destruct (process_events plugin 0 before) as [[[pa sa] ea]|] eqn:Ha;
    simpl in He; [|done].
  pose proof (process_events_buffers _ _ _ _ _ _ Ha) as (_ & _ & _ & _ & Hua).
  destruct (handle_event pa sa ev) as [[[pb sb] eb]|] eqn:Hb;
    simpl in He; [|done].
  destruct (process_events pb sb after) as [[[pc sc] ec]|] eqn:Hc;
    simpl in He; [|done].
  injection He as <- <- <-.
  pose proof (handle_event_buffers _ _ _ _ _ _ Hb) as (_ & _ & _ & _ & Hub).
  apply handle_event_requested in Hb. rewrite Hua, Hreq in Hb.
  destruct Hb as (_ & Hcopy & _).
  apply process_events_no_request in Hc; [|by rewrite Hub, Hua].
  apply render_buffers in Hr as (Hs2 & Hp2 & Hr2 & _).
  pose proof (install_pending_play _ _ _ Hi) as (Hp3 & _).
  apply install_pending_spec in Hi.
  assert (Hready2 : ready p2 = true).
  { unfold ready in *. by rewrite Hr2, Hr1. }
  rewrite <- Hp3, Hplay, Hready2 in Hi. simpl in Hi.
  destruct Hi as (Hsamp & Hfp & Hinfo & _).
  assert (Hpath : filepath (pending_samp plugin') = filepath (samp plugin)).
  { by rewrite Hfp, Hs2, Hs1. }
  split; [|split; [done|split]].
  - rewrite Hsamp, Hp2, Hc.
    unfold memcpy in Hcopy. case_match; [|done].
    injection Hcopy as <-. by rewrite take_app_length.
  - rewrite Hsig. rewrite omap_app. unfold omap at 2. simpl.
    rewrite Hreq. rewrite length_app. simpl. lia.
  - intros st plugin'' Hturn. destruct Hturn as [p k Hk].
    rewrite handle_load_sample_info. simpl.
    by rewrite Hpath, Hinfo, Hs2, Hs1.
Qed.

(** ** From the file to the output *)

Lemma handle_load_sample_decoded st plugin :
  load_succeeds st plugin = true ->
  exists items,
    (open_pending st plugin).2 = Some items
    /\ pending_samp (handle_load_sample st plugin).1
       = mkSampleFile (filepath (pending_samp plugin))
                      (open_pending st plugin).1
                      (Live (sf_read_float items
                               (frames (open_pending st plugin).1)))
    /\ pending_sample_ready (handle_load_sample st plugin).1 = 1.
Proof.
  unfold load_succeeds, handle_load_sample, open_pending. simpl.
  destruct (sf_open st _ _) as [info' [items|]]; [|done].
  destruct (frames info' =? 0); [done|].
  destruct (channels info' =? 1); [|done]. simpl.
  destruct (malloc_ok st (frames info')); [|done].
  intros _. by exists items.
Qed.

(** X8.  What is loaded is what is played.  After a load that succeeds on an
    idle plugin (frame count reported between 0 and [2^32], active buffer
    not released), the next block without events is silent and installs the
    frames read from the file; a note-on at offset [k] in the block after
    that plays exactly these frames from the first one on. *)
Theorem loaded_sample_is_played st plugin note (k : nat)
    (out1 out2 : list F32.t) :
  load_succeeds st plugin = true ->
  0 <= frames (open_pending st plugin).1 < 2 ^ 32 ->
  play plugin = false ->
  data (samp plugin) <> Released ->
  is_note_on (uris plugin) note = true ->
  time_frames note = Z.of_nat k ->
  (k <= length out2)%nat ->
  exists items p1 e1 p2 e2,
    (open_pending st plugin).2 = Some items
    /\ run (handle_load_sample st plugin).1 [] out1 (Z.of_nat (length out1))
       = Some (p1, replicate (length out1) F32.zero, e1)
    /\ samples (samp p1)
       = sf_read_float items (frames (open_pending st plugin).1)
    /\ run p1 [note] out2 (Z.of_nat (length out2))
       = Some (p2,
               replicate k F32.zero
                 ++ take (length out2 - k) (samples (samp p1))
                 ++ replicate (length out2 - k - length (samples (samp p1)))
                              F32.zero,
               e2).
Proof.
  intros Hok Hrange Hidle Hlive Hnote Htime Hk.
  destruct (handle_load_sample_decoded st plugin Hok)
    as (items & Hitems & Hpend & Hrdy).
  pose proof (handle_load_sample_frame st plugin)
    as (Hs & Hp & _ & Hu & _).
  set (loaded := (handle_load_sample st plugin).1) in *.
  set (decoded_frames :=
         sf_read_float items (frames (open_pending st plugin).1)) in *.
  (* the idle block installs *)
  assert (Hinst : exists p1 e1,
            install_pending loaded = Some (p1, e1)
            /\ samp p1 = pending_samp loaded
            /\ play p1 = false /\ uris p1 = uris plugin
            /\ pending_sample_ready p1 = 0).
  { unfold install_pending, ready. rewrite Hp, Hidle, Hrdy. simpl.
    rewrite Hs.
    destruct (data (samp plugin)) as [|l|] eqn:Hd; [| |done]; simpl;
      eexists _, _; (split; [done|]); simpl; repeat split; congruence. }
  destruct Hinst as (p1 & e1 & Hi & Hs1 & Hp1 & Hu1 & Hr1).
  exists items, p1, ([] ++ e1).
  pose proof (run_idle_from loaded [] loaded 0 [] out1 eq_refl) as Hrun1.
  rewrite Hrun1 by (by rewrite Hp). rewrite Hi. cbn [mbind option_bind].
  assert (Hsamples : samples (samp p1) = decoded_frames).
  { unfold samples. by rewrite Hs1, Hpend. }
  (* the note *)
  assert (Hev : process_events p1 0 [note]
                = Some (set_play true (set_frame 0 p1), Z.of_nat k, [])).
  { simpl. rewrite handle_event_note_on by (by rewrite Hu1).
    simpl. by rewrite Htime. }
  pose proof (run_playing_from p1 [note] (set_play true (set_frame 0 p1)) []
                k (length out2) (length decoded_frames) 0 out2 decoded_frames
                Hev eq_refl) as Hrun2.
  cbn zeta in Hrun2.
  assert (Hlen : Z.of_nat (length decoded_frames)
                 = frames (open_pending st plugin).1).
  { unfold decoded_frames. rewrite length_sf_read_float. lia. }
  rewrite Hrun2; try done; try lia.
  2:{ simpl. by rewrite Hs1, Hpend. }
  2:{ simpl. rewrite Hs1, Hpend. simpl. rewrite <- Hlen.
      apply to_uint32_small. lia. }
  clear Hrun2 Hrun1.
  rewrite Nat.sub_0_r, drop_0.
  set (m := min (length out2 - k) (length decoded_frames)).
  set (q := if _ =? _ then _ else _).
  assert (Hq : install_pending q = Some (q, [])).
  { assert (Hrq : ready q = false).
    { unfold q, ready. by case_match; simpl; rewrite Hr1. }
    unfold install_pending. by rewrite Hrq, andb_false_r. }
  rewrite Hq. cbn [mbind option_bind].
  exists q, ([] ++ []).
  split; [done|]. split; [done|]. split; [done|].
  rewrite Hsamples.
  replace (take m decoded_frames)
    with (take (length out2 - k) decoded_frames).
  - by replace (length out2 - k - m)%nat
      with (length out2 - k - length decoded_frames)%nat by (subst m; lia).
  - subst m. rewrite <- take_take.
    by rewrite (take_ge decoded_frames (length decoded_frames)) by lia.
Qed.

(** ** [cleanup] after a swap *)

(** X9.  [cleanup] releases a block a second time once [run] has displaced
    a loaded sample: after a call of [run] that installs the pending buffer
    while the active one holds samples, [cleanup] is undefined, the pending
    buffer still pointing to the block [run] has passed to [free]; and it
    stays so after a load that fails before it allocates. *)
Theorem cleanup_frees_displaced_block_again plugin events output n
    plugin' output' eff (l : list F32.t) :
  run plugin events output n = Some (plugin', output', eff) ->
  play plugin' = false ->
  ready plugin = true ->
  data (samp plugin) = Live l ->
  Free (Live l) ∈ eff
  /\ cleanup plugin' = None
  /\ forall st,
       (open_pending st plugin').2 = None
       \/ frames (open_pending st plugin').1 = 0
       \/ channels (open_pending st plugin').1 <> 1 ->
       cleanup (handle_load_sample st plugin').1 = None.
Proof.
  intros Hrun Hplay Hready Hdata.
  pose proof (run_frees_on_install _ _ _ _ _ _ _ Hrun Hplay Hready) as Hfree.
  rewrite Hdata in Hfree. split; [done|].
  apply run_phases in Hrun
    as (p1 & sf & e1 & p2 & pos & out1 & e2 & pos' & He & Hr & Hi & _ & _).
  apply process_events_buffers in He as (Hs1 & _ & _ & Hr1 & _).
  apply render_buffers in Hr as (Hs2 & _ & Hr2 & _).
  pose proof (install_pending_play _ _ _ Hi) as (Hp3 & _).
  apply install_pending_spec in Hi.
  assert (Hready2 : ready p2 = true).
  { unfold ready in *. by rewrite Hr2, Hr1. }
  rewrite <- Hp3, Hplay, Hready2 in Hi. simpl in Hi.
  destruct Hi as (_ & _ & _ & Hfr & _).
  rewrite Hs2, Hs1, Hdata in Hfr. simpl in Hfr. injection Hfr as Hrel.
  assert (Hnone : forall q, data (pending_samp q) = Released -> cleanup q = None).
  { intros q Hq. unfold cleanup. rewrite Hq.
    by destruct (free (data (samp q))). }
  split; [by apply Hnone|].
  intros st Hcause. apply Hnone.
  unfold handle_load_sample, open_pending in *. simpl.
  destruct (sf_open st _ _) as [info' [items|]]; simpl in *; [|done].
  destruct Hcause as [?|[->|Hc]]; [done|done|].
  destruct (Z.eqb_spec (channels info') 1) as [?|_]; [done|].
  by rewrite orb_true_r.
Qed.

(** ** [instantiate] *)

Lemma default_sample_file_no_nul : 0 ∉ default_sample_file.
Proof.
  unfold default_sample_file.
  repeat (apply not_elem_of_cons; split; [done|]). apply not_elem_of_nil.
Qed.

Lemma default_path (path : list Z) :
  0 ∉ path ->
  (len ← strlen (strncpy path STRING_BUF);
   strncat (strncpy path STRING_BUF) default_sample_file
           (Z.to_nat STRING_BUF - len))
  = if decide (Z.of_nat (length path) + 15 <= STRING_BUF)
    then Some (strncpy (path ++ default_sample_file) STRING_BUF)
    else None.
Proof.
  intros Hpath.
  pose proof (strncat_after_strncpy path default_sample_file
                (Z.to_nat STRING_BUF) Hpath default_sample_file_no_nul) as H.
  replace (Z.of_nat (Z.to_nat STRING_BUF)) with STRING_BUF in H
    by (unfold STRING_BUF; lia).
  rewrite H. clear H.
  change (length default_sample_file) with 14%nat.
  repeat case_decide; try done; unfold STRING_BUF in *; lia.
Qed.

Lemma bind_then {A B C} (o : option A) (f : A -> option B)
    (k : B -> option C) (r : option B) :
  (a ← o; f a) = r -> (a ← o; b ← f a; k b) = (b ← r; k b).
Proof. intros <-. by destruct o. Qed.

Lemma default_path_then {A} (path : list Z) (k : list Z -> option A) :
  0 ∉ path ->
  (len ← strlen (strncpy path STRING_BUF);
   fp ← strncat (strncpy path STRING_BUF) default_sample_file
               (Z.to_nat STRING_BUF - len);
   k fp)
  = if decide (Z.of_nat (length path) + 15 <= STRING_BUF)
    then k (strncpy (path ++ default_sample_file) STRING_BUF)
    else None.
Proof.
  intros Hpath. rewrite (bind_then _ _ k _ (default_path path Hpath)).
  by case_decide.
Qed.

Lemma scan_features_none uri fs : forall found,
  Forall (fun g => feature_URI g <> uri) fs ->
  scan_features uri fs found = found.
Proof.
  induction fs as [|g fs IH]; intros found Hnone; [done|]. simpl.
  apply Forall_cons in Hnone as [Hg Hnone].
  rewrite IH by done. by case_bool_decide.
Qed.

Lemma scan_features_last uri before f after : forall found,
  feature_URI f = uri ->
  Forall (fun g => feature_URI g <> uri) after ->
  scan_features uri (before ++ f :: after) found = feature_data f.
Proof.
  induction before as [|g before IH]; intros found Hf Hafter; simpl.
  - rewrite scan_features_none by done. by case_bool_decide.
  - by apply IH.
Qed.

(** X10.  When the allocations, the semaphore and the thread succeed,
    [instantiate] goes by the last feature whose URI is that of the URID
    map: the instance it returns has the [map] function of that feature and
    the seven URIDs this function gives; it returns a null pointer for want
    of a map when that feature carries a null pointer, even if an earlier
    one carried a map, and when no feature has the URI. *)
Theorem instantiate_uses_last_map names host st path before f after :
  malloc_plugin_ok host = true ->
  malloc_samp_ok host = true ->
  malloc_pending_ok host = true ->
  sem_init_ok host = true ->
  thread_ok host = true ->
  feature_URI f = LV2_URID_map_URI names ->
  Forall (fun g => feature_URI g <> LV2_URID_map_URI names) after ->
  match feature_data f with
  | No_data =>
      instantiate names host st path (before ++ f :: after)
      = Some (inl No_urid_map)
  | Urid_map m =>
      forall inst eff,
        instantiate names host st path (before ++ f :: after)
        = Some (inr (inst, eff)) ->
        map inst = m
        /\ uris (sampler inst)
           = mkURIs (m (ATOM_BLANK_URI names))
                    (m (ATOM_RESOURCE_URI names))
                    (m (FILENAME_URI names))
                    (m (MIDI_EVENT_URI names))
                    (m (LV2_MESSAGE_Set names))
                    (m (LV2_MESSAGE_body names))
                    (m (LV2_STATE_PATH_URI names))
  | Map_path _ =>
      instantiate names host st path (before ++ f :: after) = None
  end
  /\ instantiate names host st path after = Some (inl No_urid_map).
Proof.
  intros H1 H2 H3 H4 H5 Hf Hafter. unfold instantiate.
  rewrite H1, H2, H3, H4, H5. cbn [negb orb].
  rewrite scan_features_last, scan_features_none by done.
  generalize zeroed_SampleFile STRING_BUF. intros zeroed size.
  split; [|done].
  destruct (feature_data f) as [|m|g]; [done| |done].
  intros inst eff Hinst.
  destruct (strlen (strncpy path size)) as [len|]; [|done].
  cbn [mbind option_bind] in Hinst.
  destruct (strncat _ _ _) as [fp|]; [|done].
  cbn [mbind option_bind] in Hinst.
  injection Hinst as <- _. cbn [map sampler]. split; [done|].
  by rewrite handle_load_sample_uris.
Qed.

(** X11.  With a URID map from the host and a bundle path of at most
    [STRING_BUF - 15] characters, [instantiate] returns the plugin as the
    first load leaves it: both buffers zeroed but for the pending path, which
    reads as the bundle path followed by [monosample.wav]; the active buffer
    is empty, the ready flag tells whether that file loaded, and the plugin
    is well formed when the library reports no negative frame count. *)
Theorem instantiate_loads_default_sample names host st path features m :
  malloc_plugin_ok host = true ->
  malloc_samp_ok host = true ->
  malloc_pending_ok host = true ->
  sem_init_ok host = true ->
  thread_ok host = true ->
  scan_features (LV2_URID_map_URI names) features No_data = Urid_map m ->
  0 ∉ path ->
  Z.of_nat (length path) + 15 <= STRING_BUF ->
  frames_not_negative st ->
  let start :=
    allocated (mkURIs (m (ATOM_BLANK_URI names)) (m (ATOM_RESOURCE_URI names))
                      (m (FILENAME_URI names)) (m (MIDI_EVENT_URI names))
                      (m (LV2_MESSAGE_Set names)) (m (LV2_MESSAGE_body names))
                      (m (LV2_STATE_PATH_URI names)))
              (path ++ default_sample_file)
              (left_play host) (left_frame host) (left_ready host) in
  let plugin := (handle_load_sample st start).1 in
  instantiate names host st path features
  = Some (inr (mkInstance plugin m, (handle_load_sample st start).2))
  /\ c_str (filepath (pending_samp plugin)) = path ++ default_sample_file
  /\ samp plugin = zeroed_SampleFile
  /\ ready plugin = load_succeeds st start
  /\ well_formed plugin = true.
Proof.
  intros H1 H2 H3 H4 H5 Hmap Hpath Hlen Hst start plugin.
  pose proof (handle_load_sample_frame st start) as (Hs & _ & _ & _ & _ & Hfp).
  split; [|split; [|split; [|split]]].
  - unfold instantiate. rewrite H1, H2, H3, H4, H5, Hmap. cbn [negb orb].
    rewrite default_path_then by done.
    case_decide; [reflexivity|contradiction].
  - unfold plugin. rewrite Hfp. unfold start, allocated. cbn [pending_samp].
    unfold set_filepath. cbn [filepath].
    replace STRING_BUF with (Z.of_nat (Z.to_nat STRING_BUF))
      by (unfold STRING_BUF; lia).
    apply c_str_strncpy.
    + intros Hin. apply elem_of_app in Hin as [?|Hin]; [done|].
      by apply default_sample_file_no_nul.
    + rewrite length_app. change (length default_sample_file) with 14%nat.
      unfold STRING_BUF in *. lia.
  - unfold plugin. by rewrite Hs.
  - unfold ready, plugin. rewrite handle_load_sample_ready.
    by destruct (load_succeeds st start).
  - apply handle_load_sample_well_formed; [done|reflexivity| | | |].
    + unfold start, allocated, zeroed_SampleFile. cbn [samp filepath].
      apply length_replicate.
    + unfold start, allocated. cbn [pending_samp]. unfold set_filepath.
      cbn [filepath]. apply length_strncpy.
    + unfold start, allocated, zeroed_SampleFile. cbn [samp filepath].
      apply holds_string_zeros. unfold STRING_BUF. lia.
    + unfold start, allocated. cbn [pending_samp]. unfold set_filepath.
      cbn [filepath].
      replace STRING_BUF with (Z.of_nat (Z.to_nat STRING_BUF))
        by (unfold STRING_BUF; lia).
      apply holds_string_strncpy. rewrite length_app.
      change (length default_sample_file) with 14%nat.
      unfold STRING_BUF in *. lia.
Qed.

(** X12.  A bundle path of more than [STRING_BUF - 15] characters makes
    [instantiate] write outside the path array: [strncat] is given the room
    that is left as its bound, and its terminating NUL goes one past the end
    (or [strlen] finds no end at all).  The behaviour is undefined. *)
Theorem instantiate_overruns_path names host st path features m :
  malloc_plugin_ok host = true ->
  malloc_samp_ok host = true ->
  malloc_pending_ok host = true ->
  sem_init_ok host = true ->
  thread_ok host = true ->
  scan_features (LV2_URID_map_URI names) features No_data = Urid_map m ->
  0 ∉ path ->
  STRING_BUF < Z.of_nat (length path) + 15 ->
  instantiate names host st path features = None.
Proof.
  intros H1 H2 H3 H4 H5 Hmap Hpath Hlen.
  unfold instantiate. rewrite H1, H2, H3, H4, H5, Hmap. cbn [negb orb].
  rewrite default_path_then by done.
  case_decide; [lia|reflexivity].
Qed.

(** ** Paths in requests and in the saved state *)

Lemma handle_load_sample_announces st plugin :
  exists eff,
    (handle_load_sample st plugin).2
    = Stdout (Loading_sample (filepath (pending_samp plugin))) :: eff.
Proof.
  unfold handle_load_sample. simpl.
  destruct (sf_open st _ _) as [info' [items|]]; [|by eexists].
  destruct ((frames info' =? 0) || negb (channels info' =? 1)); [by eexists|].
  destruct (malloc_ok st (frames info')); by eexists.
Qed.

(** X13.  Where the loop acts on a set message (a build that reads the
    store of line 285 back), the filename holds a string, which line 308
    prints, and is copied as so many bytes: the path array keeps its
    length, its first bytes are those of the atom, the NUL and what follows
    it included, the rest of the array is what it was, and the path the
    loader will read is the filename up to its NUL. *)
Theorem request_path_as_string plugin sf ev plugin' sf' eff str :
  requested (uris plugin) ev = Some str ->
  handle_event plugin sf ev = Some (plugin', sf', eff) ->
  0 ∈ str
  /\ (length str <= length (filepath (pending_samp plugin)))%nat
  /\ filepath (pending_samp plugin')
     = str ++ drop (length str) (filepath (pending_samp plugin))
  /\ c_str (filepath (pending_samp plugin')) = c_str str
  /\ eff = [Stderr (Request_to_load (c_str str))].
Proof.
  intros Hreq Hev. apply handle_event_requested in Hev.
  rewrite Hreq in Hev. destruct Hev as (_ & Hcopy & -> & Hnul).
  apply holds_string_elem in Hnul.
  unfold memcpy in Hcopy.
  destruct (Nat.leb_spec (length str) (length (filepath (pending_samp plugin))))
    as [Hle|]; [|done].
  injection Hcopy as <-.
  split; [done|]. split; [done|]. split; [done|]. split; [|done].
  by apply c_str_app_nul.
Qed.

Lemma restore_path st path plugin :
  0 ∉ path ->
  Z.of_nat (length path) < STRING_BUF ->
  c_str (filepath (pending_samp (restore st (Some path) plugin).1)) = path.
Proof.
  intros Hpath Hlen. unfold restore. cbn [fst].
  pose proof (handle_load_sample_frame st
                (set_pending_samp
                   (set_filepath (strncpy path STRING_BUF)
                                 (pending_samp plugin)) plugin))
    as (_ & _ & _ & _ & _ & ->).
  change (c_str (strncpy path STRING_BUF) = path).
  replace STRING_BUF with (Z.of_nat (Z.to_nat STRING_BUF)) in Hlen |- *
    by (unfold STRING_BUF; lia).
  apply c_str_strncpy; [done|lia].
Qed.

(** X14.  [restore] with a stored path shorter than the path array loads
    that path at once, in the caller's thread: the pending path array is
    replaced as a whole and reads as the stored path, the semaphore is not
    posted, the active buffer and the playback state are left alone, the
    ready flag tells whether the load went through, and the two messages on
    standard output come first. *)
Theorem restore_loads_stored_path st path plugin :
  0 ∉ path ->
  Z.of_nat (length path) < STRING_BUF ->
  let asked :=
    set_pending_samp
      (set_filepath (strncpy path STRING_BUF) (pending_samp plugin)) plugin in
  let plugin' := (restore st (Some path) plugin).1 in
  c_str (filepath (pending_samp plugin')) = path
  /\ length (filepath (pending_samp plugin')) = Z.to_nat STRING_BUF
  /\ samp plugin' = samp plugin
  /\ play plugin' = play plugin
  /\ frame plugin' = frame plugin
  /\ signal plugin' = signal plugin
  /\ ready plugin' = load_succeeds st asked
  /\ exists eff,
       (restore st (Some path) plugin).2
       = Stdout (Restoring_filename path)
         :: Stdout (Loading_sample (strncpy path STRING_BUF)) :: eff.
Proof.
  intros Hpath Hlen asked plugin'.
  assert (Hp : plugin' = (handle_load_sample st asked).1) by reflexivity.
  pose proof (handle_load_sample_frame st asked)
    as (Hs & Hpl & Hfr & _ & Hsig & Hfp).
  assert (Hasked : filepath (pending_samp asked) = strncpy path STRING_BUF)
    by reflexivity.
  rewrite Hp, Hs, Hpl, Hfr, Hsig, Hfp, Hasked.
  split; [|split; [|repeat split]].
  - replace STRING_BUF with (Z.of_nat (Z.to_nat STRING_BUF)) in Hlen |- *
      by (unfold STRING_BUF; lia).
    apply c_str_strncpy; [done|lia].
  - apply length_strncpy.
  - unfold ready. rewrite handle_load_sample_ready.
    by destruct (load_succeeds st asked).
  - destruct (handle_load_sample_announces st asked) as [eff Heff].
    exists eff. unfold restore. cbn [snd]. fold asked.
    by rewrite Heff, Hasked.
Qed.

(** X15.  [restore] with a stored path of [STRING_BUF] characters or more
    fills the pending path array with the first [STRING_BUF] of them and
    leaves no room for a NUL: the array the loader then hands to the sound
    file library holds no string. *)
Theorem restore_long_path_unterminated st path plugin :
  0 ∉ path ->
  STRING_BUF <= Z.of_nat (length path) ->
  let plugin' := (restore st (Some path) plugin).1 in
  filepath (pending_samp plugin') = take (Z.to_nat STRING_BUF) path
  /\ strlen (filepath (pending_samp plugin')) = None.
Proof.
  intros Hpath Hlen plugin'.
  assert (Hfp : filepath (pending_samp plugin') = take (Z.to_nat STRING_BUF) path).
  { unfold plugin', restore. cbn [fst].
    pose proof (handle_load_sample_frame st
                  (set_pending_samp
                     (set_filepath (strncpy path STRING_BUF)
                                   (pending_samp plugin)) plugin))
      as (_ & _ & _ & _ & _ & ->).
    change (strncpy path STRING_BUF = take (Z.to_nat STRING_BUF) path).
    replace STRING_BUF with (Z.of_nat (Z.to_nat STRING_BUF)) at 1
      by (unfold STRING_BUF; lia).
    apply strncpy_long. lia. }
  split; [done|]. rewrite Hfp. apply strlen_no_nul.
  intros Hin. apply Hpath. by apply (subseteq_take (Z.to_nat STRING_BUF) path).
Qed.

(** X16.  [save] uses the path mapper without looking whether the host
    gave one: among features of which none has the URI of the path mapper
    the call goes through a null pointer, its behaviour is undefined. *)
Theorem save_needs_map_path names inst features :
  Forall (fun g => feature_URI g <> LV2_STATE_MAP_PATH_URI names) features ->
  save names inst features = None.
Proof.
  intros Hnone. unfold save. by rewrite scan_features_none.
Qed.

(** X17.  [save] stores the path the mapper returned under the URID of the
    filename key, but with the size of the plugin's own path: one more than
    the length of the active path.  When the mapped path is longer than the
    active one, the bytes the host is told to keep are its first characters
    and hold no NUL. *)
Theorem save_size_of_own_path names inst features abstract_path c :
  scan_features (LV2_STATE_MAP_PATH_URI names) features No_data
  = Map_path abstract_path ->
  save names inst features = Some c ->
  let own := c_str (filepath (samp (sampler inst))) in
  store_key c = map inst (FILENAME_URI names)
  /\ store_type c = state_Path (uris (sampler inst))
  /\ store_value c = abstract_path own
  /\ store_size c = S (length own)
  /\ ((length own < length (abstract_path own))%nat ->
      0 ∉ abstract_path own ->
      exists bytes,
        stored_bytes c = Some bytes
        /\ bytes = take (S (length own)) (abstract_path own)
        /\ 0 ∉ bytes).
Proof.
  intros Hscan Hsave own. unfold save in Hsave. rewrite Hscan in Hsave.
  destruct (strlen (filepath (samp (sampler inst)))) as [len|] eqn:Hlen;
    [|done].
  apply strlen_c_str in Hlen. fold own in Hlen.
  cbn [mbind option_bind] in Hsave. injection Hsave as <-.
  unfold stored_bytes.
  cbn [store_key store_type store_value store_size]. fold own.
  subst len. rewrite (Nat.add_1_r (length own)).
  split; [done|]. split; [done|]. split; [done|]. split; [done|].
  intros Hlonger Hnul.
  destruct (Nat.leb_spec (S (length own)) (length (abstract_path own) + 1));
    [|lia].
  eexists. split; [reflexivity|].
  rewrite take_app_le by lia. split; [done|].
  intros Hin. apply Hnul. by apply (subseteq_take (S (length own))).
Qed.

(** X18.  Saving and restoring gives the path back when the mapper returns
    the active path as it is: with a string in the active path array of
    [STRING_BUF] characters, [save] makes its call, the host finds the path
    and its NUL in the bytes it is told to keep, and [restore] of that
    string, into any plugin, leaves the pending path reading as the active
    path read when it was saved. *)
Theorem save_then_restore names inst features abstract_path len st plugin :
  scan_features (LV2_STATE_MAP_PATH_URI names) features No_data
  = Map_path abstract_path ->
  strlen (filepath (samp (sampler inst))) = Some len ->
  length (filepath (samp (sampler inst))) = Z.to_nat STRING_BUF ->
  let own := c_str (filepath (samp (sampler inst))) in
  abstract_path own = own ->
  exists c,
    save names inst features = Some c
    /\ stored_bytes c = Some (own ++ [0])
    /\ c_str (filepath (pending_samp
                (restore st (Some (c_str (own ++ [0]))) plugin).1))
       = own.
Proof.
  intros Hscan Hlen Hsize own Hsame.
  pose proof (strlen_lt _ _ Hlen) as Hlt.
  pose proof (strlen_c_str _ _ Hlen) as Hown. fold own in Hown.
  pose proof (c_str_no_nul (filepath (samp (sampler inst)))) as Hnul.
  fold own in Hnul.
  unfold save. rewrite Hscan, Hlen. cbn [mbind option_bind]. fold own.
  rewrite Hsame. eexists. split; [reflexivity|]. split.
  - unfold stored_bytes. cbn [store_size store_value].
    destruct (Nat.leb_spec (len + 1) (length own + 1)); [|lia].
    f_equal. apply take_ge. rewrite length_app. simpl. lia.
  - rewrite c_str_app by done. simpl. rewrite app_nil_r.
    apply restore_path; [done|].
    unfold STRING_BUF in *. lia.
Qed.

(** ** What the loader leaves behind *)

(** X19.  The loader never releases a block: no [free] is among the effects
    of a load, whatever the pending buffer held.  A load that succeeds puts
    the newly decoded block in its place, a load that fails leaves the data
    pointer as it was or null. *)
Theorem load_never_frees st plugin :
  Forall (fun e => forall b, e <> Free b) (handle_load_sample st plugin).2
  /\ (load_succeeds st plugin = true ->
      exists items,
        (open_pending st plugin).2 = Some items
        /\ data (pending_samp (handle_load_sample st plugin).1)
           = Live (sf_read_float items (frames (open_pending st plugin).1)))
  /\ (load_succeeds st plugin = false ->
      data (pending_samp (handle_load_sample st plugin).1)
      = data (pending_samp plugin)
      \/ data (pending_samp (handle_load_sample st plugin).1) = Null).
Proof.
  split; [|split].
  - unfold handle_load_sample. simpl.
    destruct (sf_open st _ _) as [info' [items|]].
    + destruct ((frames info' =? 0) || negb (channels info' =? 1)).
      { by repeat (apply Forall_cons_2; [done|]). }
      destruct (malloc_ok st (frames info'));
        by repeat (apply Forall_cons_2; [done|]).
    + by repeat (apply Forall_cons_2; [done|]).
  - intros Hok.
    destruct (handle_load_sample_decoded st plugin Hok) as (items & Ho & -> & _).
    by exists items.
  - unfold load_succeeds, handle_load_sample, open_pending. simpl.
    destruct (sf_open st _ _) as [info' [items|]]; [|by left].
    destruct (frames info' =? 0); [by left|].
    destruct (channels info' =? 1); [|by left]. simpl.
    destruct (malloc_ok st (frames info')); [done|by right].
Qed.

(** ** [connect_port] *)

Lemma connect_ports_snoc ports calls c :
  connect_ports ports (calls ++ [c])
  = connect_port (connect_ports ports calls) c.1 c.2.
Proof. unfold connect_ports. by rewrite foldl_app. Qed.

(** X20.  After any number of [connect_port] calls each port points to the
    address of the last call that named it, or to what it pointed to before
    when no call did; calls with another index change nothing. *)
Theorem connect_ports_last ports calls :
  event_port (connect_ports ports calls)
  = default (event_port ports)
            (snd <$> last (filter (fun c => c.1 = 0) calls))
  /\ output_port (connect_ports ports calls)
     = default (output_port ports)
               (snd <$> last (filter (fun c => c.1 = 1) calls)).
Proof.
  induction calls as [|[port addr] calls [IHe IHo]] using rev_ind; [done|].
  rewrite connect_ports_snoc, !filter_app, !filter_cons, !filter_nil.
  unfold connect_port. cbn [fst snd].
  destruct (Z.eqb_spec port 0) as [->|H0].
  { rewrite decide_True by done. rewrite decide_False by done.
    rewrite last_snoc, app_nil_r. by cbn. }
  rewrite (decide_False (P := port = 0)) by done. rewrite app_nil_r.
  destruct (Z.eqb_spec port 1) as [->|H1].
  - rewrite decide_True by done. rewrite last_snoc. by cbn.
  - rewrite decide_False by done. rewrite app_nil_r. by cbn.
Qed.

End Build.

(** * The builds compared *)

Lemma rejected_in_either_build al u ev m :
  al <> Undefined_store ->
  rejected Store_seen u ev = Some m ->
  exists m', rejected al u ev = Some m'.
Proof.
  intros Hal H. destruct al; [done|by exists m|].
  unfold rejected in *. repeat case_match; simplify_eq; by eexists.
Qed.

(** C7.  An event the loop, as its text reads, sets aside (a set message
    without body or without filename, an object of another type, an event
    of a type the plugin does not know) is contained, whether the program
    is built to read the store of line 285 back or not: it is reported on
    the error stream, by one report, and changes neither the plugin nor
    [start_frame]; the events after it are processed as if it were not
    there; and the block with the event gives the plugin and the output of
    the block without it, the report being the only difference.  The report
    is that of the text in a build that reads the store back; the other
    build reports a missing body where the text reports a missing
    filename. *)
Theorem rejected_event_contained al plugin before ev after output n m :
  al <> Undefined_store ->
  rejected Store_seen (uris plugin) ev = Some m ->
  exists m',
    rejected al (uris plugin) ev = Some m'
    /\ (al = Store_seen -> m' = m)
    /\ (forall p sf, uris p = uris plugin ->
          handle_event al p sf ev = Some (p, sf, [Stderr m']))
    /\ (forall p sf, uris p = uris plugin ->
          process_events al p sf (ev :: after)
          = (fun '(p', sf', eff) => (p', sf', Stderr m' :: eff))
              <$> process_events al p sf after)
    /\ match run al plugin (before ++ after) output n with
       | Some (plugin', output', eff) =>
           exists eff1 eff2,
             eff = eff1 ++ eff2
             /\ run al plugin (before ++ ev :: after) output n
                = Some (plugin', output', eff1 ++ Stderr m' :: eff2)
       | None => run al plugin (before ++ ev :: after) output n = None
       end.
Proof.
  intros Hal Hrej.
  destruct (rejected_in_either_build al _ _ _ Hal Hrej) as [m' Hm'].
  exists m'. split; [done|]. split; [intros ->; congruence|].
  exact (rejected_contained al plugin before ev after output n m' Hm').
Qed.

(** * The properties at concrete inputs *)

(** The scenario of the design document: the four-frame sample, a note-on at
    offset 0, a block of six frames. *)
Lemma run_note_on_output_witness :
  exists plugin' eff,
    run Store_seen Scenario.idle [Scenario.note_on 0] Scenario.block6 6
    = Some (plugin',
            [F32.c0_1; F32.c0_2; F32.c0_3; F32.c0_4; F32.zero; F32.zero],
            eff)
    /\ play plugin' = false.
Proof.
  destruct (run_note_on_output Store_seen Scenario.idle []
              (Scenario.note_on 0) [] 0 6 Scenario.block6
              Scenario.four_frames)
    as (plugin' & eff & Hrun & Hplay & _).
  - reflexivity.
  - reflexivity.
  - reflexivity.
  - vm_compute. eexists. reflexivity.
  - lia.
  - reflexivity.
  - reflexivity.
  - reflexivity.
  - reflexivity.
  - exists plugin', eff. split; [exact Hrun | exact Hplay].
Defined.

Lemma note_on_restarts_witness :
  process_events Store_seen (set_frame 3 (set_play true Scenario.idle)) 0
    [Scenario.note_on 1; Scenario.note_on 2]
  = Some (set_play true (set_frame 0 Scenario.idle), 2, []).
Proof.
  exact (proj2 (proj2 (proj2 (proj2
    (note_on_restarts Store_seen (set_frame 3 (set_play true Scenario.idle))
       0 (Scenario.note_on 1) [Scenario.note_on 2] eq_refl eq_refl))))).
Defined.

(** A set message without filename between a note-on and a request, in the
    two builds. *)
Lemma rejected_event_contained_witness :
  (exists plugin' eff1 eff2,
     run Store_seen Scenario.idle [Scenario.note_on 1; Scenario.set_path]
         Scenario.block6 6
     = Some (plugin', [F32.zero; F32.c0_1; F32.c0_2; F32.c0_3; F32.c0_4;
                       F32.zero], eff1 ++ eff2)
     /\ run Store_seen Scenario.idle
          [Scenario.note_on 1; Scenario.set_without_filename;
           Scenario.set_path]
          Scenario.block6 6
        = Some (plugin', [F32.zero; F32.c0_1; F32.c0_2; F32.c0_3; F32.c0_4;
                          F32.zero],
                eff1 ++ Stderr Ignored_set_message_no_filename :: eff2))
  /\ (exists plugin' eff1 eff2,
        run Store_unseen Scenario.idle [Scenario.note_on 1; Scenario.set_path]
            Scenario.block6 6
        = Some (plugin', [F32.zero; F32.c0_1; F32.c0_2; F32.c0_3; F32.c0_4;
                          F32.zero], eff1 ++ eff2)
        /\ run Store_unseen Scenario.idle
             [Scenario.note_on 1; Scenario.set_without_filename;
              Scenario.set_path]
             Scenario.block6 6
           = Some (plugin', [F32.zero; F32.c0_1; F32.c0_2; F32.c0_3;
                             F32.c0_4; F32.zero],
                   eff1 ++ Stderr Malformed_set_message_no_body :: eff2)).
Proof.
  split.
  - destruct (rejected_event_contained Store_seen Scenario.idle
                [Scenario.note_on 1] Scenario.set_without_filename
                [Scenario.set_path] Scenario.block6 6
                Ignored_set_message_no_filename ltac:(discriminate) eq_refl)
      as (m' & Hm' & _ & _ & _ & H).
    injection Hm' as <-.
    destruct (run Store_seen Scenario.idle
                ([Scenario.note_on 1] ++ [Scenario.set_path])
                Scenario.block6 6) as [[[plugin' output'] eff]|] eqn:Hrun.
    + destruct H as (eff1 & eff2 & -> & H).
      exists plugin', eff1, eff2.
      assert (output' = [F32.zero; F32.c0_1; F32.c0_2; F32.c0_3; F32.c0_4;
                         F32.zero]) as ->.
      { vm_compute in Hrun. by injection Hrun as _ <- _. }
      split; [exact Hrun | exact H].
    + vm_compute in Hrun. discriminate Hrun.
  - destruct (rejected_event_contained Store_unseen Scenario.idle
                [Scenario.note_on 1] Scenario.set_without_filename
                [Scenario.set_path] Scenario.block6 6
                Ignored_set_message_no_filename ltac:(discriminate) eq_refl)
      as (m' & Hm' & _ & _ & _ & H).
    injection Hm' as <-.
    destruct (run Store_unseen Scenario.idle
                ([Scenario.note_on 1] ++ [Scenario.set_path])
                Scenario.block6 6) as [[[plugin' output'] eff]|] eqn:Hrun.
    + destruct H as (eff1 & eff2 & -> & H).
      exists plugin', eff1, eff2.
      assert (output' = [F32.zero; F32.c0_1; F32.c0_2; F32.c0_3; F32.c0_4;
                         F32.zero]) as ->.
      { vm_compute in Hrun. by injection Hrun as _ <- _. }
      split; [exact Hrun | exact H].
    + vm_compute in Hrun. discriminate Hrun.
Defined.

(** An idle block with a decoded buffer pending installs it; a block that
    ends playing leaves the active buffer alone though the flag is set. *)
Lemma swap_only_idle_and_ready_witness :
  (exists plugin' output' eff,
     run Store_seen Scenario.other_ready [] Scenario.block6 6
     = Some (plugin', output', eff)
     /\ samp plugin' = pending_samp Scenario.other_ready
     /\ ready plugin' = false
     /\ eff = [Free (Live Scenario.four_frames)])
  /\ run Store_seen Scenario.idle_ready [Scenario.note_on 0]
         [F32.c0_4; F32.c0_4] 2
     = Some (set_frame 2 (set_play true Scenario.idle_ready),
             [F32.c0_1; F32.c0_2], [])
  /\ samp (set_frame 2 (set_play true Scenario.idle_ready))
     = samp Scenario.idle_ready.
Proof.
  split; [|split].
  - destruct (proj2 (swap_only_idle_and_ready Store_seen Scenario.other_ready
                       [] Scenario.block6 6)
                Scenario.other_ready 0 [] eq_refl ltac:(lia) eq_refl eq_refl)
      as (plugin' & output' & eff & Hrun & Hswap).
    assert (Hplay : play plugin' = false).
    { vm_compute in Hrun. by injection Hrun as <- _ _. }
    destruct (Hswap Hplay eq_refl) as (Hsamp & _ & _ & Hready & Heff).
    exists plugin', output', eff.
    split; [exact Hrun|]. split; [exact Hsamp|]. split; [exact Hready|].
    exact Heff.
  - vm_compute. reflexivity.
  - assert (Hrun :
      run Store_seen Scenario.idle_ready [Scenario.note_on 0]
          [F32.c0_4; F32.c0_4] 2
      = Some (set_frame 2 (set_play true Scenario.idle_ready),
              [F32.c0_1; F32.c0_2], [])) by (vm_compute; reflexivity).
    exact (proj2 (proj1 (swap_only_idle_and_ready Store_seen
                           Scenario.idle_ready [Scenario.note_on 0]
                           [F32.c0_4; F32.c0_4] 2) _ _ _ Hrun) eq_refl).
Defined.

Lemma failed_load_keeps_active_witness :
  ready (handle_load_sample Scenario.empty_store Scenario.idle_ready).1 = false
  /\ samp (handle_load_sample Scenario.empty_store Scenario.idle_ready).1
     = Scenario.loaded.
Proof.
  pose proof (failed_load_keeps_active Store_seen Scenario.empty_store
                Scenario.idle_ready (or_introl eq_refl))
    as (_ & _ & Hready & Hsamp & _).
  split; [exact Hready | exact Hsamp].
Defined.

(** C5, as stated, at a concrete input: the flag is up, the loader runs on a
    path that does not open, and the flag is down. *)
Lemma loader_clears_ready :
  ready Scenario.idle_ready = true
  /\ ready (handle_load_sample Scenario.empty_store Scenario.idle_ready).1
     = false.
Proof. split; reflexivity. Qed.

Lemma ready_flag_writers_witness :
  pending_sample_ready
    (handle_load_sample Scenario.store2 Scenario.idle_ready).1 = 1
  /\ pending_sample_ready
       (mkSampler Scenario.loaded (set_data Released Scenario.loaded)
                  0 0 Scenario.the_uris false 0) = 0.
Proof.
  assert (Hinstall :
    run Store_seen Scenario.idle_ready [] Scenario.block6 6
    = Some (mkSampler Scenario.loaded (set_data Released Scenario.loaded)
                      0 0 Scenario.the_uris false 0,
            replicate 6 F32.zero, [Free (Live Scenario.four_frames)]))
    by (vm_compute; reflexivity).
  pose proof (ready_flag_writers Store_seen Scenario.store2
                Scenario.idle_ready [] Scenario.block6 6 _ _ _ Hinstall)
    as (Hload & Hrun & _).
  split; [exact Hload | exact Hrun].
Defined.

(** C6, as stated, at a concrete input: the default sample loads, then the
    host restores the path of a stereo file of fifty frames.  The second load
    fails after [sf_open] has filled in the frame count, and the pending
    buffer keeps the four samples of the first load. *)
Lemma failed_load_leaves_stale_samples :
  buffers_consistent Scenario.at_start = true
  /\ (pending_samp
        <$> perform_all Store_seen Scenario.at_start
              [Call_load Scenario.store2;
               Call_restore Scenario.store2 (Some [115; 46; 119; 97; 118])])
     = Some (mkSampleFile (strncpy [115; 46; 119; 97; 118] STRING_BUF)
                          (mkInfo 50 2) (Live Scenario.four_frames))
  /\ consistent (mkSampleFile (strncpy [115; 46; 119; 97; 118] STRING_BUF)
                              (mkInfo 50 2) (Live Scenario.four_frames))
     = false.
Proof. split; [|split]; vm_compute; reflexivity. Qed.

Lemma buffers_stay_consistent_witness :
  exists plugin',
    perform_all Store_seen Scenario.at_start
      [Call_load Scenario.store2;
       Call_restore Scenario.store2 (Some [115; 46; 119; 97; 118]);
       Call_run [Scenario.note_on 0] Scenario.block6 6]
    = Some plugin'
    /\ buffers_consistent plugin' = true.
Proof.
  destruct (perform_all Store_seen Scenario.at_start
      [Call_load Scenario.store2;
       Call_restore Scenario.store2 (Some [115; 46; 119; 97; 118]);
       Call_run [Scenario.note_on 0] Scenario.block6 6]) as [plugin'|] eqn:H.
  - exists plugin'. split; [reflexivity|].
    exact (buffers_stay_consistent Store_seen _ Scenario.at_start plugin'
             eq_refl H).
  - vm_compute in H. discriminate H.
Defined.




Lemma run_overwrites_block_witness :
  run Store_seen Scenario.idle [Scenario.note_on 1] (replicate 6 F32.c0_1) 6
  = run Store_seen Scenario.idle [Scenario.note_on 1] Scenario.block6 6.
Proof.
  assert (Hrun :
    run Store_seen Scenario.idle [Scenario.note_on 1] Scenario.block6 6
    = Some (set_frame 4 Scenario.idle,
            [F32.zero; F32.c0_1; F32.c0_2; F32.c0_3; F32.c0_4; F32.zero], []))
    by (vm_compute; reflexivity).
  rewrite Hrun.
  exact (proj2 (run_overwrites_block Store_seen _ _ _ _ _ _ _ Hrun eq_refl)
               (replicate 6 F32.c0_1) eq_refl).
Defined.



Lemma idle_block_is_silent_witness :
  run Store_seen Scenario.idle_ready [Scenario.set_path] Scenario.block6 6
  ≫= (fun r => Some r.1.2)
  = Some (replicate 6 F32.zero).
Proof.
  destruct (run Store_seen Scenario.idle_ready [Scenario.set_path]
              Scenario.block6 6)
    as [[[plugin' output'] eff]|] eqn:Hrun.
  - destruct (idle_block_is_silent Store_seen Scenario.idle_ready
                [Scenario.set_path] Scenario.block6 plugin' output' eff
                eq_refl eq_refl Hrun)
      as (-> & _).
    reflexivity.
  - vm_compute in Hrun. discriminate Hrun.
Defined.

Lemma note_continues_witness :
  exists plugin' eff,
    run Store_seen (set_frame 1 (set_play true Scenario.idle))
        [Scenario.set_path] Scenario.block6 6
    = Some (plugin', [F32.c0_2; F32.c0_3; F32.c0_4; F32.zero; F32.zero;
                      F32.zero], eff)
    /\ play plugin' = false.
Proof.
  destruct (note_continues Store_seen
              (set_frame 1 (set_play true Scenario.idle))
              [Scenario.set_path] 6 1 Scenario.block6 Scenario.four_frames)
    as (plugin' & eff & Hrun & Hplay & _).
  - reflexivity.
  - reflexivity.
  - vm_compute. eexists. reflexivity.
  - reflexivity.
  - reflexivity.
  - reflexivity.
  - reflexivity.
  - simpl. lia.
  - reflexivity.
  - exists plugin', eff. split; [exact Hrun | exact Hplay].
Defined.

Lemma blocks_compose_witness :
  run Store_seen (set_play true Scenario.idle) []
      (replicate 2 F32.c0_4 ++ replicate 4 F32.c0_4) 6
  = '(p1, o1, e1) ← run Store_seen (set_play true Scenario.idle) []
                        (replicate 2 F32.c0_4) 2;
    '(p2, o2, e2) ← run Store_seen p1 [] (replicate 4 F32.c0_4) 4;
    Some (p2, o1 ++ o2, e1 ++ e2).
Proof.
  apply (blocks_compose Store_seen (set_play true Scenario.idle)
           (replicate 2 F32.c0_4) (replicate 4 F32.c0_4)
           Scenario.four_frames 0).
  - reflexivity.
  - reflexivity.
  - reflexivity.
  - reflexivity.
  - simpl. lia.
Defined.

(** Two requests and a set message without filename: two posts in the build
    that reads the store of line 285 back, none in the other. *)
Lemma run_posts_per_request_witness :
  (exists plugin' output' eff,
     run Store_seen Scenario.idle
         [Scenario.set_path; Scenario.set_without_filename; Scenario.set_path]
         Scenario.block6 6
     = Some (plugin', output', eff)
     /\ signal plugin' = 2%nat)
  /\ (exists plugin' output' eff,
        run Store_unseen Scenario.idle
            [Scenario.set_path; Scenario.set_without_filename;
             Scenario.set_path]
            Scenario.block6 6
        = Some (plugin', output', eff)
        /\ signal plugin' = 0%nat).
Proof.
  split.
  - destruct (run Store_seen Scenario.idle
                [Scenario.set_path; Scenario.set_without_filename;
                 Scenario.set_path] Scenario.block6 6)
      as [[[plugin' output'] eff]|] eqn:Hrun.
    + exists plugin', output', eff. split; [reflexivity|].
      exact (proj1 (run_posts_per_request Store_seen _ _ _ _ _ _ _ Hrun)).
    + vm_compute in Hrun. discriminate Hrun.
  - destruct (run Store_unseen Scenario.idle
                [Scenario.set_path; Scenario.set_without_filename;
                 Scenario.set_path] Scenario.block6 6)
      as [[[plugin' output'] eff]|] eqn:Hrun.
    + exists plugin', output', eff. split; [reflexivity|].
      exact (proj2 (run_posts_per_request Store_unseen _ _ _ _ _ _ _ Hrun)
                   ltac:(discriminate)).
    + vm_compute in Hrun. discriminate Hrun.
Defined.

Lemma request_lands_in_installed_buffer_witness :
  exists plugin' output' eff,
    run Store_seen Scenario.other_ready [Scenario.set_path] Scenario.block6 6
    = Some (plugin', output', eff)
    /\ take 6 (filepath (samp plugin')) = [115; 46; 119; 97; 118; 0]
    /\ filepath (pending_samp plugin') = filepath Scenario.loaded.
Proof.
  destruct (run Store_seen Scenario.other_ready [Scenario.set_path]
              Scenario.block6 6)
    as [[[plugin' output'] eff]|] eqn:Hrun.
  - assert (Hplay : play plugin' = false).
    { vm_compute in Hrun. by injection Hrun as <- _ _. }
    destruct (request_lands_in_installed_buffer Store_seen
                Scenario.other_ready [] Scenario.set_path []
                [115; 46; 119; 97; 118; 0]
                Scenario.block6 6 plugin' output' eff
                eq_refl eq_refl Hrun Hplay eq_refl)
      as (Htake & Hpath & _).
    exists plugin', output', eff.
    split; [reflexivity|]. split; [exact Htake | exact Hpath].
  - vm_compute in Hrun. discriminate Hrun.
Defined.

Lemma loaded_sample_is_played_witness :
  exists p1 e1 p2 e2,
    run Store_seen (handle_load_sample Scenario.store2 Scenario.at_start).1 []
        Scenario.block6 6
    = Some (p1, replicate 6 F32.zero, e1)
    /\ run Store_seen p1 [Scenario.note_on 1] Scenario.block6 6
       = Some (p2, [F32.zero; F32.c0_1; F32.c0_2; F32.c0_3; F32.c0_4;
                    F32.zero], e2).
Proof.
  destruct (loaded_sample_is_played Store_seen Scenario.store2
              Scenario.at_start (Scenario.note_on 1) 1 Scenario.block6
              Scenario.block6)
    as (items & p1 & e1 & p2 & e2 & Hitems & Hrun1 & Hsamples & Hrun2).
  - reflexivity.
  - vm_compute. split; [discriminate|reflexivity].
  - reflexivity.
  - discriminate.
  - reflexivity.
  - reflexivity.
  - simpl. lia.
  - exists p1, e1, p2, e2. split; [exact Hrun1|].
    rewrite Hsamples in Hrun2.
    injection Hitems as <-. exact Hrun2.
Defined.

Lemma cleanup_frees_displaced_block_again_witness :
  exists plugin' output' eff,
    run Store_seen Scenario.idle_ready [] Scenario.block6 6
    = Some (plugin', output', eff)
    /\ cleanup plugin' = None.
Proof.
  destruct (run Store_seen Scenario.idle_ready [] Scenario.block6 6)
    as [[[plugin' output'] eff]|] eqn:Hrun.
  - assert (Hplay : play plugin' = false).
    { vm_compute in Hrun. by injection Hrun as <- _ _. }
    exists plugin', output', eff. split; [reflexivity|].
    exact (proj1 (proj2 (cleanup_frees_displaced_block_again Store_seen
             Scenario.idle_ready [] Scenario.block6 6 plugin' output' eff
             Scenario.four_frames Hrun Hplay eq_refl eq_refl))).
  - vm_compute in Hrun. discriminate Hrun.
Defined.

Lemma instantiate_uses_last_map_witness :
  instantiate Session.names Session.host Session.bundle_store Session.bundle
    [Session.map_feature; Session.null_map_feature; Session.map_path_feature]
  = Some (inl No_urid_map).
Proof.
  refine (proj1 (instantiate_uses_last_map Session.names Session.host
            Session.bundle_store Session.bundle [Session.map_feature]
            Session.null_map_feature [Session.map_path_feature]
            eq_refl eq_refl eq_refl eq_refl eq_refl eq_refl _)).
  apply Forall_cons_2; [discriminate | apply Forall_nil_2].
Defined.

Lemma instantiate_loads_default_sample_witness :
  exists inst eff,
    instantiate Session.names Session.host Session.bundle_store
      Session.bundle [Session.map_feature; Session.map_path_feature]
    = Some (inr (inst, eff))
    /\ c_str (filepath (pending_samp (sampler inst)))
       = Session.bundle ++ default_sample_file
    /\ well_formed (sampler inst) = true.
Proof.
  destruct (instantiate_loads_default_sample Session.names Session.host
              Session.bundle_store Session.bundle
              [Session.map_feature; Session.map_path_feature] Session.the_map)
    as (Hinst & Hpath & _ & _ & Hwf).
  - reflexivity.
  - reflexivity.
  - reflexivity.
  - reflexivity.
  - reflexivity.
  - reflexivity.
  - unfold Session.bundle.
    repeat (apply not_elem_of_cons; split; [discriminate|]).
    apply not_elem_of_nil.
  - vm_compute. discriminate.
  - intros path i. unfold Session.bundle_store. cbn [sf_open].
    case_bool_decide; simpl; lia.
  - eexists _, _. split; [exact Hinst|]. split; [exact Hpath | exact Hwf].
Defined.

Lemma instantiate_overruns_path_witness :
  instantiate Session.names Session.host Session.bundle_store
    (replicate (Z.to_nat 8178) 47) [Session.map_feature]
  = None.
Proof.
  apply (instantiate_overruns_path Session.names Session.host
           Session.bundle_store (replicate (Z.to_nat 8178) 47)
           [Session.map_feature] Session.the_map);
    [reflexivity | reflexivity | reflexivity | reflexivity | reflexivity
    | reflexivity | | ].
  - intros Hin. apply elem_of_replicate in Hin as [Hin _]. discriminate Hin.
  - rewrite length_replicate. vm_compute. reflexivity.
Defined.

Lemma request_path_as_string_witness :
  exists plugin' sf' eff,
    handle_event Store_seen Scenario.idle 0 Scenario.set_path
    = Some (plugin', sf', eff)
    /\ c_str (filepath (pending_samp plugin')) = [115; 46; 119; 97; 118].
Proof.
  destruct (handle_event Store_seen Scenario.idle 0 Scenario.set_path)
    as [[[plugin' sf'] eff]|] eqn:Hev.
  - exists plugin', sf', eff. split; [reflexivity|].
    exact (proj1 (proj2 (proj2 (proj2 (request_path_as_string Store_seen
             Scenario.idle 0 Scenario.set_path plugin' sf' eff
             [115; 46; 119; 97; 118; 0] eq_refl Hev))))).
  - vm_compute in Hev. discriminate Hev.
Defined.

Lemma restore_loads_stored_path_witness :
  c_str (filepath (pending_samp
           (restore Scenario.store2 (Some [109; 46; 119; 97; 118])
                    Scenario.idle).1))
  = [109; 46; 119; 97; 118].
Proof.
  apply (restore_loads_stored_path Scenario.store2 [109; 46; 119; 97; 118]
           Scenario.idle).
  - repeat (apply not_elem_of_cons; split; [discriminate|]).
    apply not_elem_of_nil.
  - reflexivity.
Defined.

Lemma restore_long_path_unterminated_witness :
  strlen (filepath (pending_samp
            (restore Scenario.store2 (Some (replicate (Z.to_nat 8192) 47))
                     Scenario.idle).1))
  = None.
Proof.
  apply (restore_long_path_unterminated Scenario.store2
           (replicate (Z.to_nat 8192) 47) Scenario.idle).
  - intros Hin. apply elem_of_replicate in Hin as [Hin _]. discriminate Hin.
  - rewrite length_replicate. vm_compute. discriminate.
Defined.

Lemma save_needs_map_path_witness :
  save Session.names (mkInstance Scenario.idle Session.the_map)
       [Session.map_feature]
  = None.
Proof.
  apply save_needs_map_path.
  apply Forall_cons_2; [discriminate | apply Forall_nil_2].
Defined.

Lemma save_size_of_own_path_witness :
  exists c,
    save Session.names (mkInstance Scenario.idle Session.the_map)
         [Session.map_feature; Session.prefixing_feature]
    = Some c
    /\ store_size c = 6%nat
    /\ stored_bytes c = Some [97; 98; 115; 58; 109; 46].
Proof.
  destruct (save Session.names (mkInstance Scenario.idle Session.the_map)
              [Session.map_feature; Session.prefixing_feature])
    as [c|] eqn:Hsave.
  - destruct (save_size_of_own_path Session.names
                (mkInstance Scenario.idle Session.the_map)
                [Session.map_feature; Session.prefixing_feature]
                (fun path => [97; 98; 115; 58] ++ path) c eq_refl Hsave)
      as (_ & _ & _ & Hsize & Hbytes).
    exists c. split; [reflexivity|]. split; [exact Hsize|].
    destruct Hbytes as (bytes & Hstored & -> & _).
    + vm_compute. lia.
    + vm_compute. intros Hin.
      repeat (apply elem_of_cons in Hin as [Hin|Hin]; [discriminate Hin|]).
      by apply elem_of_nil in Hin.
    + exact Hstored.
  - vm_compute in Hsave. discriminate Hsave.
Defined.

Lemma save_then_restore_witness :
  exists c,
    save Session.names (mkInstance Scenario.idle Session.the_map)
         [Session.map_path_feature]
    = Some c
    /\ stored_bytes c = Some [109; 46; 119; 97; 118; 0]
    /\ c_str (filepath (pending_samp
                (restore Scenario.store2 (Some [109; 46; 119; 97; 118])
                         Scenario.at_start).1))
       = [109; 46; 119; 97; 118].
Proof.
  exact (save_then_restore Session.names
           (mkInstance Scenario.idle Session.the_map)
           [Session.map_path_feature] (fun path => path) 5%nat
           Scenario.store2 Scenario.at_start
           eq_refl eq_refl eq_refl eq_refl).
Defined.

Lemma load_never_frees_witness :
  Forall (fun e => forall b, e <> Free b)
         (handle_load_sample Scenario.store2 Scenario.idle_ready).2
  /\ data (pending_samp
             (handle_load_sample Scenario.store2 Scenario.idle_ready).1)
     = Live Scenario.four_frames.
Proof.
  destruct (load_never_frees Scenario.store2 Scenario.idle_ready)
    as (Hfree & Hok & _).
  split; [exact Hfree|].
  destruct (Hok eq_refl) as (items & Hitems & ->).
  vm_compute in Hitems. injection Hitems as <-. reflexivity.
Defined.
